(** * Migration tooling of SuperSiteHero: splitter, script discovery, engine

    A shallow embedding of
    - [scripts/split-migrations.py] (the Splitter),
    - the discovery and execution loop of [run-migrations.py]
      (ScriptStore and Engine), and
    - [scripts/run-single-migration.py],
    together with the properties the specification states about them.

    The text of a document and the name of a file are modelled with
    [string], one [ascii] per character, so the development covers documents
    and names whose characters have a code below 256.  In that range the
    only characters matched by the regular expression class [\d] are ["0"]
    .. ["9"], and Python's ordering of [str] values (by code point) is the
    ordering of [String.compare].  The contents of a script file are bytes;
    see [Reading]. *)

From Stdlib Require Import Ascii String.
From stdpp Require Import gmap strings list sorting pretty.

Local Open Scope string_scope.
Local Open Scope list_scope.

(* stdpp blocks the unfolding of string append; the proofs below compute
   with it. *)
Local Arguments String.append !_ _ / : simpl nomatch.

(** ** Lines of a text *)

Module Text.

Definition newline : ascii := "010"%char.
Definition carriage_return : ascii := "013"%char.

(** [content.split('\n')]: always at least one element. *)
Fixpoint split_nl (s : string) : list string :=
  match s with
  | EmptyString => [""]
  | String c r =>
      if Ascii.eqb c newline then "" :: split_nl r
      else match split_nl r with
           | l :: ls => String c l :: ls
           | [] => [String c ""]
           end
  end.

(** ['\n'.join(buffer)]. *)
Fixpoint join_nl (ls : list string) : string :=
  match ls with
  | [] => ""
  | [l] => l
  | l :: ls' => l +:+ String newline (join_nl ls')
  end.

Fixpoint no_newline (s : string) : bool :=
  match s with
  | EmptyString => true
  | String c r => negb (Ascii.eqb c newline) && no_newline r
  end.

End Text.
Import Text.

(** ** The Splitter: [scripts/split-migrations.py] *)

Module Splitter.

Definition is_digit (c : ascii) : bool :=
  (48 <=? nat_of_ascii c)%nat && (nat_of_ascii c <=? 57)%nat.

Definition digit_value (c : ascii) : N := N_of_ascii c - 48.

(** [int(s)] on a string of decimal digits, as the pattern hands it over
    (Python refuses numerals of more than 4300 digits; the model has no such
    limit). *)
Fixpoint int_from (acc : N) (s : string) : N :=
  match s with
  | EmptyString => acc
  | String c r => int_from (10 * acc + digit_value c) r
  end.
Definition int (s : string) : N := int_from 0 s.

Fixpoint all_digits (s : string) : bool :=
  match s with
  | EmptyString => true
  | String c r => is_digit c && all_digits r
  end.

(** Matching a literal at the start of a string; the remainder is returned. *)
Fixpoint strip_prefix (p s : string) : option string :=
  match p with
  | EmptyString => Some s
  | String a p' =>
      match s with
      | String b s' => if Ascii.eqb a b then strip_prefix p' s' else None
      | EmptyString => None
      end
  end.

(** [(\d+)], greedy: the longest run of digits.  What follows in the pattern
    is the literal [_], which is no digit, so a shorter run never matches. *)
Fixpoint take_digits (s : string) : string * string :=
  match s with
  | String c r =>
      if is_digit c then
        let '(ds, rest) := take_digits r in (String c ds, rest)
      else ("", s)
  | EmptyString => ("", "")
  end.

(** The tail of [(.+?)\.sql] once the first character of the group has been
    taken: lazily, stop at the first place where [.sql] follows; [.] does
    not match a newline. *)
Fixpoint lazy_until_sql (s : string) : option string :=
  match strip_prefix ".sql" s with
  | Some _ => Some ""
  | None =>
      match s with
      | EmptyString => None
      | String c r =>
          if Ascii.eqb c newline then None
          else String c <$> lazy_until_sql r
      end
  end.

(** [re.match(r'-- Migration: (\d+)_(.+?)\.sql', line)]: the two groups.
    [re.match] anchors the pattern at the start of the line only. *)
Definition re_match (line : string) : option (string * string) :=
  match strip_prefix "-- Migration: " line with
  | None => None
  | Some rest =>
      let '(ds, rest1) := take_digits rest in
      match ds, rest1 with
      | String _ _, String "_"%char (String c r) =>
          if Ascii.eqb c newline then None
          else (λ nm, (ds, String c nm)) <$> lazy_until_sql r
      | _, _ => None
      end
  end.

Definition is_marker (line : string) : bool :=
  match re_match line with Some _ => true | None => false end.

(** [f"{n:03d}"]: decimal, padded with zeros on the left to width 3. *)
Fixpoint zeros (k : nat) : string :=
  match k with
  | O => ""
  | S k' => String "0" (zeros k')
  end.
Definition fmt03 (n : N) : string :=
  let s := pretty n in zeros (3 - String.length s) +:+ s.

(** The values of the [migrations] dictionary. *)
Record migration := Migration { name : string; content : string }.

Global Instance migration_eq_dec : EqDecision migration.
Proof. solve_decision. Defined.

(** The variables of the loop.  [current_number] and [current_name] are
    assigned together, so they are one optional pair here; [None] is
    Python's [current_number is None]. *)
Record state := State {
  migrations : gmap string migration;
  current : option (N * string);
  buffer : list string
}.

Definition initial : state :=
  {| migrations := ∅; current := None; buffer := [] |}.

(** [if current_number is not None: migrations[migration_key] = {...}] *)
Definition save (st : state) : gmap string migration :=
  match current st with
  | Some (number, nm) =>
      <[fmt03 number := {| name := nm; content := join_nl (buffer st) |}]>
        (migrations st)
  | None => migrations st
  end.

(** The body of [for line in content.split('\n')]. *)
Definition step (st : state) (line : string) : state :=
  match re_match line with
  | Some (g1, g2) =>
      {| migrations := save st; current := Some (int g1, g2); buffer := [line] |}
  | None =>
      {| migrations := migrations st; current := current st;
         buffer := buffer st ++ [line] |}
  end.

Definition scan (lines : list string) : state := foldl step initial lines.

(** The dictionary once the loop and the final save are done. *)
Definition split_lines (lines : list string) : gmap string migration :=
  save (scan lines).
Definition split_migrations (doc : string) : gmap string migration :=
  split_lines (split_nl doc).

(** [for migration_key in sorted(migrations.keys())]. *)
Definition key_le (a b : string * migration) : Prop := String.le a.1 b.1.
Global Instance key_le_dec : RelDecision key_le.
Proof. intros a b. unfold key_le. apply _. Defined.

Definition emitted (m : gmap string migration) : list (string * migration) :=
  merge_sort key_le (map_to_list m).

(** [filename = f'{migration_key}_{migration["name"]}.sql'] *)
Definition filename (kv : string * migration) : string :=
  kv.1 +:+ "_" +:+ name kv.2 +:+ ".sql".

(** The files written, in order: name and contents. *)
Definition written_files (m : gmap string migration) : list (string * string) :=
  (λ kv, (filename kv, content kv.2)) <$> emitted m.

(** An emitted unit as the triple (sequence, name, body); the sequence is
    the number in front of the file name. *)
Definition unit_of (kv : string * migration) : N * string * string :=
  (int kv.1, name kv.2, content kv.2).
Definition units (m : gmap string migration) : list (N * string * string) :=
  unit_of <$> emitted m.

(** How a run of the script ends.  The script has no [raise]; the error kind
    is the one the specification names. *)
Inductive error := EmptyInputError.
Inductive outcome :=
  | Completed (files : list (string * string))
  | Raised (e : error).

Definition run (doc : string) : outcome :=
  Completed (written_files (split_migrations doc)).

End Splitter.

Import Splitter.

(** ** Vocabulary of the Splitter properties *)

(** Lines none of which is a marker. *)
Definition plain (ls : list string) : Prop :=
  Forall (λ l, is_marker l = false) ls.

(** Where a unit ends: at the end of the input or right before a marker. *)
Definition at_boundary (post : list string) : Prop :=
  match post with
  | [] => True
  | m :: _ => is_marker m = true
  end.

(** A unit of the document: a marker line and the plain lines up to the
    next marker or the end, stored under the padded number of the marker. *)
Definition unit_in (lines : list string) (k : string) (v : migration) : Prop :=
  ∃ pre m block post g1 g2,
    lines = pre ++ m :: block ++ post
    ∧ re_match m = Some (g1, g2)
    ∧ plain block ∧ at_boundary post
    ∧ k = fmt03 (int g1)
    ∧ v = {| name := g2; content := join_nl (m :: block) |}.

(** A line that is no marker for the sequence number [n0]. *)
Definition other_number (n0 : N) (l : string) : Prop :=
  ∀ g1 g2, re_match l = Some (g1, g2) → int g1 ≠ n0.

(** A unit (sequence, name, body) whose body begins with its own marker
    line and holds no other marker line. *)
Definition own_marker_first (u : N * string * string) : Prop :=
  ∃ m block g1,
    split_nl u.2 = m :: block
    ∧ re_match m = Some (g1, u.1.2) ∧ int g1 = u.1.1
    ∧ plain block.

(** The combined document of a list of units: their bodies, one after the
    other, each starting on a line of its own. *)
Definition combine (us : list (N * string * string)) : string :=
  join_nl us.*2.

(** The bodies of a list of units put end to end, nothing in between. *)
Definition concatenation (us : list (N * string * string)) : string :=
  foldr String.append "" us.*2.

(** What the final dictionary holds for a unit. *)
Definition store (m : gmap string migration) (u : N * string * string) :
    gmap string migration :=
  <[fmt03 u.1.1 := {| name := u.1.2; content := u.2 |}]> m.

(** ** The marker form in the words of the specification

    [-- Migration: NNN_description.ext]: the literal, a numeric sequence, an
    underscore, a description, a dot and a file extension, and nothing
    else on the line. *)
Module SpecWords.

Definition is_alnum (c : ascii) : bool :=
  let n := nat_of_ascii c in
  is_digit c || ((65 <=? n)%nat && (n <=? 90)%nat)
  || ((97 <=? n)%nat && (n <=? 122)%nat).

Fixpoint all_alnum (s : string) : bool :=
  match s with
  | EmptyString => true
  | String c r => is_alnum c && all_alnum r
  end.

(** The text before and after the last dot. *)
Fixpoint split_last_dot (s : string) : option (string * string) :=
  match s with
  | EmptyString => None
  | String c r =>
      match split_last_dot r with
      | Some (a, b) => Some (String c a, b)
      | None => if Ascii.eqb c "." then Some ("", r) else None
      end
  end.

Definition spec_marker_form (line : string) : bool :=
  match strip_prefix "-- Migration: " line with
  | None => false
  | Some rest =>
      let '(ds, rest1) := take_digits rest in
      match ds, rest1 with
      | String _ _, String "_"%char r =>
          match split_last_dot r with
          | Some (String _ _, String e ext) => all_alnum (String e ext)
          | _ => false
          end
      | _, _ => false
      end
  end.

End SpecWords.

(** ** ScriptStore: the discovery of [run-migrations.py]

    A directory is the list of the names of its entries.  Names are compared
    as Python compares the paths of one directory on a POSIX system: by
    code point, case-sensitively. *)

Module ScriptStore.

(** The pieces of a glob pattern: [?], [*] and a literal character. *)
Inductive glob_token := Any | Star | Lit (c : ascii).

Fixpoint glob_match (p : list glob_token) (s : string) {struct p} : bool :=
  match p with
  | [] => match s with EmptyString => true | String _ _ => false end
  | Any :: p' =>
      match s with
      | String _ r => glob_match p' r
      | EmptyString => false
      end
  | Lit c :: p' =>
      match s with
      | String d r => Ascii.eqb c d && glob_match p' r
      | EmptyString => false
      end
  | Star :: p' =>
      (fix star (s : string) : bool :=
         glob_match p' s
         || match s with
            | String _ r => star r
            | EmptyString => false
            end) s
  end.

(** ['???_*.sql'] *)
Definition pattern : list glob_token :=
  [Any; Any; Any; Lit "_"; Star; Lit "."; Lit "s"; Lit "q"; Lit "l"].

Definition combined_name : string := "COMBINED_ALL_MIGRATIONS.sql".

(** [migrations_dir.glob('???_*.sql')] *)
Definition glob (dir : list string) : list string :=
  filter (λ f, Is_true (glob_match pattern f)) dir.

(** [sorted([f for f in ... if f.name != 'COMBINED_ALL_MIGRATIONS.sql'])] *)
Definition migration_files (dir : list string) : list string :=
  merge_sort String.le (filter (λ f, f ≠ combined_name) (glob dir)).

End ScriptStore.

(** ** The unit names in the words of the specification

    [<3-digit sequence>_<name>.<ext>], and the sequence number such a name
    carries.  The scripts never parse the number; they number the files by
    their position in the sorted list. *)
Module SpecNames.

Definition spec_unit_name (f : string) : bool :=
  match f with
  | String a (String b (String c (String "_"%char rest))) =>
      is_digit a && is_digit b && is_digit c
      && match SpecWords.split_last_dot rest with
         | Some (String _ _, String _ _) => true
         | _ => false
         end
  | _ => false
  end.

Definition has_sequence (f : string) : bool :=
  match f with
  | String a (String b (String c _)) => is_digit a && is_digit b && is_digit c
  | _ => false
  end.

Definition sequence (f : string) : N := int (String.substring 0 3 f).

(** Two files in the order ScriptStore returns them: the names ascend, and
    so do the numbers in front when both names carry one. *)
Definition ordered (f g : string) : Prop :=
  String.le f g ∧ f ≠ g
  ∧ (has_sequence f = true → has_sequence g = true → (sequence f ≤ sequence g)%N).

End SpecNames.

(** ** Reading a script: [open(path, 'r', encoding='utf-8').read()]

    A file holds bytes, one [ascii] each.  The text Python hands out is
    represented by its UTF-8 encoding, so reading is the identity on the
    bytes of a valid file, up to the translation of line ends that text mode
    performs; a file that is not valid UTF-8 raises [UnicodeDecodeError]. *)

Module Reading.

Definition byte (c : ascii) : N := N_of_ascii c.
Definition between (lo hi : N) (c : ascii) : bool :=
  (lo <=? byte c)%N && (byte c <=? hi)%N.
Definition continuation (c : ascii) : bool := between 128 191 c.

Definition lead2 (b0 : ascii) : bool := between 194 223 b0.
Definition lead3 (b0 b1 : ascii) : bool :=
  (between 224 224 b0 && between 160 191 b1)
  || (between 225 236 b0 && continuation b1)
  || (between 237 237 b0 && between 128 159 b1)
  || (between 238 239 b0 && continuation b1).
Definition lead4 (b0 b1 : ascii) : bool :=
  (between 240 240 b0 && between 144 191 b1)
  || (between 241 243 b0 && continuation b1)
  || (between 244 244 b0 && between 128 143 b1).

(** The strict UTF-8 decoder accepts exactly the well-formed sequences. *)
Fixpoint utf8_valid (s : string) : bool :=
  match s with
  | EmptyString => true
  | String b0 r0 =>
      if (byte b0 <? 128)%N then utf8_valid r0
      else
        match r0 with
        | EmptyString => false
        | String b1 r1 =>
            if lead2 b0 then continuation b1 && utf8_valid r1
            else
              match r1 with
              | EmptyString => false
              | String b2 r2 =>
                  if lead3 b0 b1 then continuation b2 && utf8_valid r2
                  else
                    match r2 with
                    | EmptyString => false
                    | String b3 r3 =>
                        lead4 b0 b1 && continuation b2 && continuation b3
                        && utf8_valid r3
                    end
              end
        end
  end.

(** Universal newlines: [\r\n] and a lone [\r] are read as [\n]. *)
Fixpoint universal_newlines (s : string) : string :=
  match s with
  | EmptyString => ""
  | String c r =>
      if Ascii.eqb c carriage_return then
        match r with
        | String d r' =>
            if Ascii.eqb d newline then String newline (universal_newlines r')
            else String newline (universal_newlines r)
        | EmptyString => String newline ""
        end
      else String c (universal_newlines r)
  end.

Definition read_text (bytes : string) : option string :=
  if utf8_valid bytes then Some (universal_newlines bytes) else None.

(** [with open(f, 'r', encoding='utf-8') as f: f.read()] in a file system
    that maps names to contents; [None] is an exception. *)
Definition read_file (fs : gmap string string) (f : string) : option string :=
  fs !! f ≫= read_text.

Fixpoint all_ascii (s : string) : bool :=
  match s with
  | EmptyString => true
  | String c r => (byte c <? 128)%N && all_ascii r
  end.

Fixpoint has_cr (s : string) : bool :=
  match s with
  | EmptyString => false
  | String c r => Ascii.eqb c carriage_return || has_cr r
  end.

End Reading.

(** ** The Engine: the connection and the loop of [run-migrations.py] *)

Module Engine.

Section WithDatabase.

(** The server: a database state, and what executing a script text on a
    state gives, a new state or the cause of the failure. *)
Context {DB Cause : Type}.
Variable exec_sql : DB → string → Cause + DB.

(** A psycopg2 connection.  Without autocommit the effects of the statements
    stay in the session until a commit; with it every successful
    [execute] is committed at once. *)
Record connection := Connection {
  autocommit : bool;
  committed : DB;
  working : DB;
  closed : bool
}.

(** [psycopg2.connect] on a server that answers. *)
Definition connect (db : DB) : connection :=
  {| autocommit := false; committed := db; working := db; closed := false |}.

(** [conn.autocommit = True] *)
Definition set_autocommit (c : connection) : connection :=
  {| autocommit := true; committed := committed c; working := working c;
     closed := closed c |}.

(** [cursor.execute(sql)]; a failed script leaves the connection as it
    was. *)
Definition execute (c : connection) (sql : string) : Cause + connection :=
  match exec_sql (working c) sql with
  | inl e => inl e
  | inr db' =>
      inr {| autocommit := autocommit c;
             committed := if autocommit c then db' else committed c;
             working := db';
             closed := closed c |}
  end.

(** [conn.close()]: what was not committed is lost. *)
Definition close (c : connection) : connection :=
  {| autocommit := autocommit c; committed := committed c;
     working := committed c; closed := true |}.

(** What the run prints for a unit. *)
Inductive status := OK | FAILED (cause : Cause).

(** What is left when the script ends: its exit status, the lines printed
    for the units (position, file name, status), the script texts passed
    to [cursor.execute] in order, and the connection if one was opened. *)
Record result := Result {
  exit_status : nat;
  report : list (nat * string * status);
  executed : list string;
  conn : option connection
}.

(** The [for] loop over the files and what follows it.  [i] is the
    position printed, [log] and [sqls] what was printed and executed so
    far.  An exception (from reading or from [execute]) leaves the
    [try] block for an [except] clause that prints and calls
    [sys.exit(1)]. *)
Fixpoint execute_each (fs : gmap string string) (c : connection) (i : nat)
    (files : list string) (log : list (nat * string * status))
    (sqls : list string) : result :=
  match files with
  | [] =>
      {| exit_status := 0; report := log; executed := sqls;
         conn := Some (close c) |}
  | migration_file :: rest =>
      match Reading.read_file fs migration_file with
      | None =>
          {| exit_status := 1; report := log; executed := sqls;
             conn := Some c |}
      | Some migration_sql =>
          match execute c migration_sql with
          | inr c' =>
              execute_each fs c' (S i) rest
                (log ++ [(i, migration_file, OK)]) (sqls ++ [migration_sql])
          | inl e =>
              {| exit_status := 1;
                 report := log ++ [(i, migration_file, FAILED e)];
                 executed := sqls ++ [migration_sql];
                 conn := Some c |}
          end
      end
  end.

(** The [try] block of [run_migrations]: connect, switch autocommit on,
    run the files.  [server] is what [psycopg2.connect] meets: the database,
    or the cause of a failed connection. *)
Definition apply_files (server : Cause + DB) (fs : gmap string string)
    (files : list string) : result :=
  match server with
  | inl _ => {| exit_status := 1; report := []; executed := []; conn := None |}
  | inr db => execute_each fs (set_autocommit (connect db)) 1 files [] []
  end.

(** [run_migrations()], from the reading of the migration files on. *)
Definition run_migrations (server : Cause + DB) (fs : gmap string string)
    (dir : list string) : result :=
  match ScriptStore.migration_files dir with
  | [] => {| exit_status := 1; report := []; executed := []; conn := None |}
  | files => apply_files server fs files
  end.

(** [run_migration(migration_file)] of [run-single-migration.py]: the file
    is read before the connection is opened.  The script prints one line
    for its file; it is reported at position 1. *)
Definition run_migration (server : Cause + DB) (fs : gmap string string)
    (migration_file : string) : result :=
  match Reading.read_file fs migration_file with
  | None => {| exit_status := 1; report := []; executed := []; conn := None |}
  | Some migration_sql =>
      match server with
      | inl _ =>
          {| exit_status := 1; report := []; executed := []; conn := None |}
      | inr db =>
          let c := set_autocommit (connect db) in
          match execute c migration_sql with
          | inr c' =>
              {| exit_status := 0; report := [(1, migration_file, OK)];
                 executed := [migration_sql]; conn := Some (close c') |}
          | inl e =>
              {| exit_status := 1; report := [(1, migration_file, FAILED e)];
                 executed := [migration_sql]; conn := Some c |}
          end
      end
  end.

(** The database after the scripts [sqls] have all run, one after the
    other; [None] when one of them fails. *)
Fixpoint apply_all (db : DB) (sqls : list string) : option DB :=
  match sqls with
  | [] => Some db
  | sql :: rest =>
      match exec_sql db sql with
      | inr db' => apply_all db' rest
      | inl _ => None
      end
  end.

(** An open connection in autocommit mode on the database [db]. *)
Definition live (db : DB) : connection :=
  {| autocommit := true; committed := db; working := db; closed := false |}.

(** The lines printed for files that all succeed, numbered from [i]. *)
Fixpoint ok_from (i : nat) (files : list string) : list (nat * string * status) :=
  match files with
  | [] => []
  | f :: rest => (i, f, OK) :: ok_from (S i) rest
  end.

End WithDatabase.

Global Arguments connection : clear implicits.
Global Arguments status : clear implicits.
Global Arguments result : clear implicits.

End Engine.

(** ** The scripts around the Engine: environment, password, arguments

    [urlparse] and [psycopg2.connect] belong to libraries; they are
    parameters here.  The environment is what [os.getenv] gives once
    [load_dotenv()] has run. *)

Module Cli.

Record db_config := DbConfig {
  host : string;
  user : string;
  password : string;
  database : string;
  port : string;
  sslmode : string;
  connect_timeout : nat
}.

Record environment := Environment {
  VITE_SUPABASE_URL : option string;
  SUPABASE_DB_PASSWORD : option string
}.

(** Python's truth of a value that is [None] or a string. *)
Definition truthy (v : option string) : option string :=
  match v with
  | Some (String c r) => Some (String c r)
  | _ => None
  end.

Section WithServer.

Context {DB Cause : Type}.
Variable exec_sql : DB → string → Cause + DB.
(** [urlparse(url).netloc] *)
Variable netloc : string → string.
(** What [psycopg2.connect] meets for a configuration. *)
Variable connect_to : db_config → Cause + DB.

Definition parse_supabase_url (url : string) : string := netloc url.

(** The connection parameters both scripts build. *)
Definition make_config (db_host db_password : string) : db_config :=
  {| host := db_host; user := "postgres"; password := db_password;
     database := "postgres"; port := "5432"; sslmode := "require";
     connect_timeout := 30 |}.

(** What a script did: whether it asked for the password at the terminal,
    the configuration it built if it came that far, and how the run
    ended. *)
Record session := Session {
  asked : bool;
  config : option db_config;
  outcome : Engine.result DB Cause
}.

(** [sys.exit(1)] before anything was read or connected. *)
Definition gave_up (was_asked : bool) : session :=
  {| asked := was_asked; config := None;
     outcome := {| Engine.exit_status := 1; Engine.report := [];
                   Engine.executed := []; Engine.conn := None |} |}.

(** [get_database_password()] of [run-migrations.py]: the environment
    variable if it is set and not empty, else what the user types at the
    prompt; [typed] is what [getpass] returns when it is called.  The result
    says whether the prompt was shown; [None] is [sys.exit(1)]. *)
Definition get_database_password (env : environment) (typed : string) :
    bool * option string :=
  match truthy (SUPABASE_DB_PASSWORD env) with
  | Some p => (false, Some p)
  | None => (true, truthy (Some typed))
  end.

(** [run_migrations()] of [run-migrations.py], from its first line. *)
Definition run_migrations (env : environment) (typed : string)
    (fs : gmap string string) (dir : list string) : session :=
  match truthy (VITE_SUPABASE_URL env) with
  | None => gave_up false
  | Some supabase_url =>
      let db_host := parse_supabase_url supabase_url in
      match get_database_password env typed with
      | (was_asked, None) => gave_up was_asked
      | (was_asked, Some db_password) =>
          let db_config := make_config db_host db_password in
          {| asked := was_asked; config := Some db_config;
             outcome :=
               Engine.run_migrations exec_sql (connect_to db_config) fs dir |}
      end
  end.

(** [get_database_password()] of [run-single-migration.py]: the
    environment variable or [sys.exit(1)]; nothing is asked. *)
Definition get_database_password_env (env : environment) : option string :=
  truthy (SUPABASE_DB_PASSWORD env).

(** [run_migration(migration_file, password)] of
    [run-single-migration.py], from its first line. *)
Definition run_migration (env : environment) (fs : gmap string string)
    (migration_file : string) (given : option string) : session :=
  match truthy (VITE_SUPABASE_URL env) with
  | None => gave_up false
  | Some supabase_url =>
      let db_host := parse_supabase_url supabase_url in
      let db_password :=
        match truthy given with
        | Some p => Some p
        | None => get_database_password_env env
        end in
      match db_password with
      | None => gave_up false
      | Some db_password =>
          let db_config := make_config db_host db_password in
          {| asked := false; config := Some db_config;
             outcome :=
               Engine.run_migration exec_sql (connect_to db_config) fs
                 migration_file |}
      end
  end.

(** The main part of [run-single-migration.py]; [argv] is [sys.argv]. *)
Definition main (argv : list string) (env : environment)
    (fs : gmap string string) : session :=
  match argv with
  | [_; migration_file] => run_migration env fs migration_file None
  | [_; migration_file; given] =>
      run_migration env fs migration_file (Some given)
  | _ => gave_up false
  end.

End WithServer.

End Cli.

(** ** A sample server

    The database is the list of the scripts applied so far; a script that
    contains no semicolon is rejected. *)

Fixpoint has_semicolon (s : string) : bool :=
  match s with
  | EmptyString => false
  | String c r => Ascii.eqb c ";" || has_semicolon r
  end.

Definition sample_exec (db : list string) (sql : string) :
    string + list string :=
  if has_semicolon sql then inr (db ++ [sql]) else inl "syntax error".

(** A server that lets in who knows the password. *)
Definition sample_connect (cfg : Cli.db_config) : string + list string :=
  if String.eqb (Cli.password cfg) "secret" then inr []
  else inl "password authentication failed".

Definition sample_env : Cli.environment :=
  {| Cli.VITE_SUPABASE_URL := Some "https://abc.supabase.co";
     Cli.SUPABASE_DB_PASSWORD := Some "" |}.

Definition sample_fs : gmap string string :=
  {[ "001_init.sql" := "create table t (id int);";
     "002_broken.sql" := "oops";
     "003_more.sql" := "alter table t add c int;" ]}.

Definition sample_dir : list string :=
  ["003_more.sql"; "001_init.sql"; "notes.txt"; "002_broken.sql"].

Definition crlf_fs : gmap string string :=
  {[ "001_init.sql" :=
       "select 1;" +:+ String carriage_return (String newline "") ]}.

(** ** The document as blocks

    The lines in front of the first marker, and then the blocks: each a
    marker line with the lines up to the next marker. *)
Fixpoint cut (lines : list string) : list string * list (list string) :=
  match lines with
  | [] => ([], [])
  | l :: rest =>
      let '(pre, blocks) := cut rest in
      if is_marker l then ([], (l :: pre) :: blocks) else (l :: pre, blocks)
  end.

(** A block: a marker line and plain lines. *)
Definition block_ok (b : list string) : Prop :=
  ∃ m block g1 g2, b = m :: block ∧ re_match m = Some (g1, g2) ∧ plain block.

(** The unit a block stands for: the number and the name its first line
    parses to, and the lines joined. *)
Definition block_unit (b : list string) : N * string * string :=
  match b with
  | m :: _ =>
      match re_match m with
      | Some (g1, g2) => (int g1, g2, join_nl b)
      | None => (0%N, "", join_nl b)
      end
  | [] => (0%N, "", "")
  end.

(** ** The console wrapper: [superclaude_wrapper.py]

    Here a string is the sequence of its code points, so that the
    characters beyond the first 256 are there. *)
Module Echo.

(** The class [[\U0001F300-\U0001F9FF]]. *)
Definition in_emoji_block (c : N) : bool :=
  (127744 <=? c)%N && (c <=? 129535)%N.

(** [re.sub(r'[\U0001F300-\U0001F9FF]', '', message)] *)
Definition strip_emoji (message : list N) : list N :=
  filter (λ c, in_emoji_block c = false) message.

Section Patched.

Context {Obj File Color Result : Type}.

(** What is given as a message: a string, or some other object. *)
Inductive value := Text (s : list N) | Object (o : Obj).

(** [str(o)] of an object that is no string: its own [__str__]. *)
Variable str_of : Obj → list N.

(** [str(message)] *)
Definition str (v : value) : list N :=
  match v with
  | Text s => s
  | Object o => str_of o
  end.

(** [click.echo] as it was before the patch. *)
Variable original_echo :
  option value → option File → bool → bool → option Color → Result.

(** [patched_echo]; [None] is Python's [None]. *)
Definition patched_echo (message : option value) (file : option File)
    (nl err : bool) (color : option Color) : Result :=
  original_echo ((λ v, Text (strip_emoji (str v))) <$> message)
    file nl err color.

End Patched.

Global Arguments value : clear implicits.

End Echo.

(** ** Sample documents *)

Definition two_units : list (N * string * string) :=
  [ (1%N, "init", join_nl ["-- Migration: 001_init.sql"; "create table t (id int);"; ""]);
    (12%N, "add_index", join_nl ["-- Migration: 12_add_index.sql"; "create index i on t (id);"]) ].

Definition two_units_unterminated : list (N * string * string) :=
  [ (1%N, "init", join_nl ["-- Migration: 001_init.sql"; "create table t (id int);"]);
    (12%N, "add_index", join_nl ["-- Migration: 12_add_index.sql"; "create index i on t (id);"]) ].

Definition doc_with_preamble : string :=
  join_nl ["-- header"; "-- Migration: 7_init.sql"; "create table t (id int);"].

Definition doc_with_duplicate : string :=
  join_nl ["-- Migration: 001_a.sql"; "x"; "-- Migration: 1_b.sql"; "y"].

(** * Properties *)

(** ** Facts about lines *)

Section TextFacts.

Lemma split_nl_cons (s : string) : ∃ l ls, split_nl s = l :: ls.
Proof.
  induction s as [|c r [l [ls IH]]]; simpl; [by eauto|].
  destruct (Ascii.eqb c newline); rewrite ?IH; eauto.
Qed.

Lemma join_nl_cons (l : string) (ls : list string) :
  ls ≠ [] → join_nl (l :: ls) = l +:+ String newline (join_nl ls).
Proof. by destruct ls. Qed.

Lemma join_nl_split_nl (s : string) : join_nl (split_nl s) = s.
Proof.
  induction s as [|c r IH]; [done|]. cbn [split_nl].
  destruct (split_nl_cons r) as (l & ls & Hr). rewrite Hr in *.
  destruct (Ascii.eqb_spec c newline) as [->|_].
  - rewrite join_nl_cons by done. by rewrite IH.
  - destruct ls; simpl in *; by rewrite <- IH.
Qed.

Lemma split_nl_app (a b : string) :
  split_nl (a +:+ String newline b) = split_nl a ++ split_nl b.
Proof.
  induction a as [|c a IH]; [done|]. simpl.
  rewrite IH. destruct (Ascii.eqb c newline); [done|].
  by destruct (split_nl_cons a) as (l & ls & ->).
Qed.

Lemma split_nl_join_nl (bodies : list string) :
  bodies ≠ [] → split_nl (join_nl bodies) = concat (split_nl <$> bodies).
Proof.
  induction bodies as [|b bs IH]; [done|]. intros _.
  destruct bs as [|b' bs].
  - simpl. by rewrite app_nil_r.
  - rewrite join_nl_cons by done. rewrite split_nl_app, IH by done. done.
Qed.

End TextFacts.

(** ** Facts about the marker pattern *)

Section PatternFacts.

Lemma strip_prefix_Some (p s r : string) :
  strip_prefix p s = Some r ↔ s = p +:+ r.
Proof.
  revert s. induction p as [|a p IH]; intros s; simpl.
  - split; congruence.
  - destruct s as [|b s]; [split; discriminate|].
    destruct (Ascii.eqb_spec a b) as [->|Hne].
    + rewrite IH. split; congruence.
    + split; [discriminate|]. intros [= ? ?]. done.
Qed.

Lemma strip_prefix_app (p r : string) : strip_prefix p (p +:+ r) = Some r.
Proof. by apply strip_prefix_Some. Qed.

Lemma underscore_no_digit : is_digit "_" = false.
Proof. reflexivity. Qed.

Lemma take_digits_sound (s ds rest : string) :
  take_digits s = (ds, rest) → s = ds +:+ rest ∧ all_digits ds = true.
Proof.
  revert ds rest. induction s as [|c s IH]; intros ds rest; simpl.
  - by intros [= <- <-].
  - destruct (is_digit c) eqn:Hc; [|by intros [= <- <-]].
    destruct (take_digits s) as [ds' rest'].
    intros [= <- <-]. destruct (IH _ _ eq_refl) as [-> Hd].
    simpl. by rewrite Hc, Hd.
Qed.

Lemma take_digits_app (ds : string) (c : ascii) (rest : string) :
  all_digits ds = true → is_digit c = false →
  take_digits (ds +:+ String c rest) = (ds, String c rest).
Proof.
  intros Hds Hc. induction ds as [|d ds IH]; simpl in *.
  - by rewrite Hc.
  - apply andb_true_iff in Hds as [-> Hds]. by rewrite IH.
Qed.

Lemma lazy_until_sql_sound (s nm : string) :
  lazy_until_sql s = Some nm →
  ∃ rest, s = nm +:+ ".sql" +:+ rest ∧ no_newline nm = true.
Proof.
  revert nm. induction s as [|c s IH]; intros nm.
  - discriminate.
  - cbn [lazy_until_sql].
    destruct (strip_prefix ".sql" (String c s)) as [rest|] eqn:Hp.
    + intros [= <-]. apply strip_prefix_Some in Hp. by exists rest.
    + destruct (Ascii.eqb c newline) eqn:Hc; [discriminate|].
      destruct (lazy_until_sql s) as [nm'|]; [|discriminate].
      intros [= <-]. destruct (IH _ eq_refl) as (rest & -> & Hn).
      exists rest. simpl. by rewrite Hc, Hn.
Qed.

Lemma lazy_until_sql_complete (nm rest : string) :
  no_newline nm = true → is_Some (lazy_until_sql (nm +:+ ".sql" +:+ rest)).
Proof.
  induction nm as [|c nm IH]; intros Hn.
  - by eexists.
  - simpl in Hn. apply andb_true_iff in Hn as [Hc Hn].
    apply negb_true_iff in Hc.
    change (String c nm +:+ ".sql" +:+ rest)
      with (String c (nm +:+ ".sql" +:+ rest)).
    cbn [lazy_until_sql].
    destruct (strip_prefix ".sql" _); [by eexists|].
    rewrite Hc. destruct (IH Hn) as [x ->]. by eexists.
Qed.

(** A line is matched exactly when it begins with the literal, one or more
    digits, an underscore, a non-empty name and [.sql]; what follows is
    free. *)
Lemma re_match_is_Some (line : string) :
  is_Some (re_match line) ↔
  ∃ ds nm rest,
    line = "-- Migration: " +:+ ds +:+ "_" +:+ nm +:+ ".sql" +:+ rest
    ∧ ds ≠ "" ∧ all_digits ds = true ∧ nm ≠ "" ∧ no_newline nm = true.
Proof.
  unfold re_match. split.
  - intros [[g1 g2] H].
    destruct (strip_prefix _ line) as [r0|] eqn:Hp; [|done].
    apply strip_prefix_Some in Hp as ->.
    destruct (take_digits r0) as [ds r1] eqn:Hd.
    apply take_digits_sound in Hd as [-> Hds].
    destruct ds as [|d ds]; [done|].
    destruct r1 as [|u r1]; [done|].
    assert (u = "_"%char) as -> by (by destruct u as [[] [] [] [] [] [] [] []]).
    destruct r1 as [|c r]; [done|].
    destruct (Ascii.eqb c newline) eqn:Hc; [done|].
    destruct (lazy_until_sql r) as [nm|] eqn:Hl; [|done].
    apply lazy_until_sql_sound in Hl as (rest & -> & Hn).
    exists (String d ds), (String c nm), rest.
    split_and!; try done. simpl. by rewrite Hc, Hn.
  - intros (ds & nm & rest & -> & Hne & Hds & Hnm & Hn).
    rewrite strip_prefix_app.
    change ("_" +:+ nm +:+ ".sql" +:+ rest)
      with (String "_" (nm +:+ ".sql" +:+ rest)).
    rewrite take_digits_app by done.
    destruct ds as [|d ds]; [done|].
    destruct nm as [|c nm]; [done|].
    simpl in Hn. apply andb_true_iff in Hn as [Hc Hn].
    apply negb_true_iff in Hc.
    change (String c nm +:+ ".sql" +:+ rest)
      with (String c (nm +:+ ".sql" +:+ rest)).
    cbv iota beta. rewrite Hc.
    destruct (lazy_until_sql_complete nm rest Hn) as [x ->]. by eexists.
Qed.

End PatternFacts.

(** ** Facts about [int] and the zero-padded key *)

Section NumberFacts.

Lemma str_app_assoc (a b c : string) : (a +:+ b) +:+ c = a +:+ (b +:+ c).
Proof. induction a as [|x a IH]; simpl; by rewrite ?IH. Qed.

Lemma str_app_length (a b : string) :
  String.length (a +:+ b) = (String.length a + String.length b)%nat.
Proof. induction a as [|x a IH]; simpl; by rewrite ?IH. Qed.

Lemma all_digits_app (a b : string) :
  all_digits (a +:+ b) = all_digits a && all_digits b.
Proof.
  induction a as [|x a IH]; simpl; [done|]. by rewrite IH, andb_assoc.
Qed.

Lemma int_from_app (acc : N) (a b : string) :
  int_from acc (a +:+ b) = int_from (int_from acc a) b.
Proof. revert acc. induction a as [|x a IH]; intros acc; simpl; by rewrite ?IH. Qed.

Lemma pretty_N_char_digit (d : N) : is_digit (pretty_N_char d) = true.
Proof. unfold pretty_N_char. by repeat case_match. Qed.

Lemma pretty_N_char_value (d : N) :
  (d < 10)%N → digit_value (pretty_N_char d) = d.
Proof.
  intros Hd.
  assert (d = 0 ∨ d = 1 ∨ d = 2 ∨ d = 3 ∨ d = 4 ∨ d = 5 ∨ d = 6 ∨ d = 7
          ∨ d = 8 ∨ d = 9)%N as H by lia.
  destruct_or!; by subst.
Qed.

(** The digits of a positive number: those of its quotient by ten, then its
    last digit. *)
Lemma pretty_N_go_app (x : N) (s : string) :
  pretty_N_go x s = pretty_N_go x "" +:+ s.
Proof.
  revert s. induction (N.lt_wf_0 x) as [x _ IH]; intros s.
  destruct (decide (x = 0%N)) as [->|Hx]; [done|].
  assert (x `div` 10 < x)%N as Hlt by (apply N.div_lt; lia).
  rewrite !(pretty_N_go_step x) by lia.
  rewrite (IH _ Hlt (String _ s)), (IH _ Hlt (String _ "")).
  by rewrite str_app_assoc.
Qed.

Lemma pretty_N_go_snoc (x : N) :
  (0 < x)%N →
  pretty_N_go x "" =
    pretty_N_go (x `div` 10) "" +:+ String (pretty_N_char (x `mod` 10)) "".
Proof. intros Hx. by rewrite pretty_N_go_step, pretty_N_go_app. Qed.

Lemma all_digits_pretty_N_go (x : N) : all_digits (pretty_N_go x "") = true.
Proof.
  induction (N.lt_wf_0 x) as [x _ IH].
  destruct (decide (x = 0%N)) as [->|Hx]; [done|].
  rewrite pretty_N_go_snoc, all_digits_app by lia.
  rewrite IH by (apply N.div_lt; lia). simpl.
  by rewrite pretty_N_char_digit.
Qed.

Lemma int_pretty_N_go (x : N) : int (pretty_N_go x "") = x.
Proof.
  unfold int. induction (N.lt_wf_0 x) as [x _ IH].
  destruct (decide (x = 0%N)) as [->|Hx]; [done|].
  rewrite pretty_N_go_snoc, int_from_app by lia.
  rewrite IH by (apply N.div_lt; lia). simpl.
  rewrite pretty_N_char_value by (apply N.mod_lt; lia).
  symmetry. apply N.div_mod. lia.
Qed.

Lemma length_pretty_N_go (k : nat) (x : N) :
  (x < 10 ^ N.of_nat k)%N → (String.length (pretty_N_go x "") ≤ k)%nat.
Proof.
  revert x. induction k as [|k IH]; intros x Hx.
  - assert (x = 0%N) as -> by (simpl in Hx; lia). done.
  - destruct (decide (x = 0%N)) as [->|Hx0]; [simpl; lia|].
    rewrite pretty_N_go_snoc, str_app_length by lia. simpl.
    assert (String.length (pretty_N_go (x `div` 10) "") ≤ k)%nat; [|lia].
    apply IH. apply N.Div0.div_lt_upper_bound.
    by rewrite Nat2N.inj_succ, N.pow_succ_r' in Hx.
Qed.

Lemma all_digits_pretty (n : N) : all_digits (pretty n) = true.
Proof.
  unfold pretty, pretty_N. case_decide; [done|]. apply all_digits_pretty_N_go.
Qed.

Lemma int_pretty (n : N) : int (pretty n) = n.
Proof.
  unfold pretty, pretty_N. case_decide; [by subst|]. apply int_pretty_N_go.
Qed.

Lemma length_pretty_pos (n : N) : (0 < String.length (pretty n))%nat.
Proof.
  unfold pretty, pretty_N. case_decide; [simpl; lia|].
  rewrite pretty_N_go_snoc, str_app_length by lia. simpl. lia.
Qed.

Lemma length_pretty_small (n : N) :
  (n ≤ 999)%N → (String.length (pretty n) ≤ 3)%nat.
Proof.
  intros Hn. unfold pretty, pretty_N. case_decide; [simpl; lia|].
  apply length_pretty_N_go. simpl. lia.
Qed.

Lemma int_from_zeros (k : nat) (s : string) :
  int_from 0 (zeros k +:+ s) = int_from 0 s.
Proof. induction k as [|k IH]; [done|]. simpl. apply IH. Qed.

Lemma all_digits_zeros (k : nat) : all_digits (zeros k) = true.
Proof. by induction k. Qed.

Lemma length_zeros (k : nat) : String.length (zeros k) = k.
Proof. induction k; simpl; by f_equal. Qed.

Lemma int_fmt03 (n : N) : int (fmt03 n) = n.
Proof. unfold fmt03, int. rewrite int_from_zeros. apply int_pretty. Qed.

Lemma all_digits_fmt03 (n : N) : all_digits (fmt03 n) = true.
Proof.
  unfold fmt03. by rewrite all_digits_app, all_digits_zeros, all_digits_pretty.
Qed.

Lemma length_fmt03 (n : N) :
  String.length (fmt03 n) = (3 `max` String.length (pretty n))%nat.
Proof. unfold fmt03. rewrite str_app_length, length_zeros. lia. Qed.

Global Instance fmt03_inj : Inj (=) (=) fmt03.
Proof. intros n1 n2 H. by rewrite <- (int_fmt03 n1), H, int_fmt03. Qed.

End NumberFacts.

(** ** The scanning loop *)

Section LoopFacts.

Lemma is_marker_false (l : string) : is_marker l = false ↔ re_match l = None.
Proof. unfold is_marker. by destruct (re_match l). Qed.

Lemma is_marker_true (l : string) :
  is_marker l = true ↔ ∃ g1 g2, re_match l = Some (g1, g2).
Proof.
  unfold is_marker. destruct (re_match l) as [[g1 g2]|]; split;
    try done; [by eauto|by intros (? & ? & ?)].
Qed.

Lemma step_marker (st : state) (l g1 g2 : string) :
  re_match l = Some (g1, g2) →
  step st l =
    {| migrations := save st; current := Some (int g1, g2); buffer := [l] |}.
Proof. intros H. unfold step. by rewrite H. Qed.

Lemma step_plain (st : state) (l : string) :
  is_marker l = false →
  step st l =
    {| migrations := migrations st; current := current st;
       buffer := buffer st ++ [l] |}.
Proof. intros H%is_marker_false. unfold step. by rewrite H. Qed.

Lemma scan_snoc (ls : list string) (l : string) :
  scan (ls ++ [l]) = step (scan ls) l.
Proof. unfold scan. by rewrite foldl_snoc. Qed.

Lemma foldl_step_plain (ls : list string) (st : state) :
  plain ls →
  foldl step st ls =
    {| migrations := migrations st; current := current st;
       buffer := buffer st ++ ls |}.
Proof.
  intros H. revert st. induction H as [|l ls Hl _ IH]; intros st; simpl.
  - rewrite app_nil_r. by destruct st.
  - rewrite IH, step_plain by done. simpl. by rewrite <- app_assoc.
Qed.

(** One marker and the plain lines after it. *)
Lemma foldl_step_block (st : state) (m g1 g2 : string) (block : list string) :
  re_match m = Some (g1, g2) → plain block →
  foldl step st (m :: block) =
    {| migrations := save st; current := Some (int g1, g2);
       buffer := m :: block |}.
Proof.
  intros Hm Hb. simpl. rewrite (step_marker _ _ _ _ Hm).
  by rewrite foldl_step_plain.
Qed.

(** While no unit is open the buffer is never read. *)
Lemma save_foldl_step_closed (ls : list string) (st st' : state) :
  migrations st = migrations st' → current st = None → current st' = None →
  save (foldl step st ls) = save (foldl step st' ls).
Proof.
  revert st st'. induction ls as [|l ls IH]; intros st st' Hm Hc Hc'; simpl.
  - unfold save. by rewrite Hc, Hc'.
  - destruct (re_match l) as [[g1 g2]|] eqn:Hl.
    + rewrite !(step_marker _ _ _ _ Hl). unfold save. by rewrite Hc, Hc', Hm.
    + apply is_marker_false in Hl. rewrite !step_plain by done.
      by apply IH.
Qed.

Lemma split_lines_plain (ls : list string) : plain ls → split_lines ls = ∅.
Proof.
  intros H. unfold split_lines, scan. by rewrite foldl_step_plain.
Qed.

Lemma split_lines_preamble (pre rest : list string) :
  plain pre → split_lines (pre ++ rest) = split_lines rest.
Proof.
  intros H. unfold split_lines, scan. rewrite foldl_app.
  rewrite (foldl_step_plain pre) by done. by apply save_foldl_step_closed.
Qed.

Lemma emitted_empty : emitted ∅ = [].
Proof. unfold emitted. by rewrite map_to_list_empty. Qed.

Lemma elem_of_emitted (m : gmap string migration) (k : string) (v : migration) :
  (k, v) ∈ emitted m ↔ m !! k = Some v.
Proof.
  unfold emitted. rewrite merge_sort_Permutation. apply elem_of_map_to_list.
Qed.

Lemma NoDup_emitted_keys (m : gmap string migration) : NoDup (emitted m).*1.
Proof.
  unfold emitted. rewrite merge_sort_Permutation. apply NoDup_fst_map_to_list.
Qed.

End LoopFacts.

Section Invariant.

Lemma at_boundary_snoc (post : list string) (l : string) :
  post ≠ [] → at_boundary post → at_boundary (post ++ [l]).
Proof. by destruct post. Qed.

Lemma scan_invariant (done : list string) :
  (∀ k v, migrations (scan done) !! k = Some v →
     ∃ pre m block post g1 g2,
       done = pre ++ m :: block ++ post
       ∧ re_match m = Some (g1, g2)
       ∧ plain block ∧ post ≠ [] ∧ at_boundary post
       ∧ k = fmt03 (int g1)
       ∧ v = {| name := g2; content := join_nl (m :: block) |})
  ∧ match current (scan done) with
    | None => plain done
    | Some (n, nm) =>
        ∃ pre m block g1,
          done = pre ++ m :: block
          ∧ re_match m = Some (g1, nm) ∧ n = int g1
          ∧ plain block ∧ buffer (scan done) = m :: block
    end.
Proof.
  induction done as [|l done [IHm IHc]] using rev_ind.
  - split; [|by constructor]. intros k v. cbn. by rewrite lookup_empty.
  - rewrite scan_snoc.
    assert (∀ k v, migrations (scan done) !! k = Some v →
      ∃ pre m block post g1 g2,
        done ++ [l] = pre ++ m :: block ++ post
        ∧ re_match m = Some (g1, g2)
        ∧ plain block ∧ post ≠ [] ∧ at_boundary post
        ∧ k = fmt03 (int g1)
        ∧ v = {| name := g2; content := join_nl (m :: block) |}) as Hold.
    { intros k v Hkv.
      destruct (IHm k v Hkv) as (pre & m & block & post & g1 & g2 & -> & ?
        & ? & ? & ? & ? & ?).
      exists pre, m, block, (post ++ [l]), g1, g2.
      split_and!; try done.
      - by rewrite <- !app_assoc, <- !app_comm_cons, <- app_assoc.
      - by destruct post.
      - by apply at_boundary_snoc. }
    destruct (re_match l) as [[g1 g2]|] eqn:Hl.
    + rewrite (step_marker _ _ _ _ Hl). simpl. split.
      * intros k v. unfold save.
        destruct (current (scan done)) as [[n nm]|]; [|by apply Hold].
        destruct IHc as (pre & m & block & g & -> & Hm & -> & Hb & Hbuf).
        rewrite lookup_insert. case_decide as Hk; [|by apply Hold].
        intros [= <-]. exists pre, m, block, [l], g, nm.
        split_and!; try done.
        -- by rewrite <- !app_assoc, <- !app_comm_cons.
        -- simpl. apply is_marker_true. eauto.
        -- by rewrite Hbuf.
      * exists done, l, [], g1. split_and!; try done. constructor.
    + apply is_marker_false in Hl. rewrite step_plain by done. simpl.
      split; [done|].
      destruct (current (scan done)) as [[n nm]|].
      * destruct IHc as (pre & m & block & g & -> & Hm & -> & Hb & Hbuf).
        exists pre, m, (block ++ [l]), g. split_and!; try done.
        -- by rewrite <- !app_assoc, <- !app_comm_cons.
        -- apply Forall_app. split; [done|]. by constructor.
        -- by rewrite Hbuf.
      * apply Forall_app. split; [done|]. by constructor.
Qed.

Lemma split_lines_unit_in (lines : list string) (k : string) (v : migration) :
  split_lines lines !! k = Some v → unit_in lines k v.
Proof.
  destruct (scan_invariant lines) as [Hm Hc].
  unfold split_lines, save.
  assert (migrations (scan lines) !! k = Some v → unit_in lines k v) as Hold.
  { intros Hkv.
    destruct (Hm k v Hkv) as (pre & m & block & post & g1 & g2 & ? & ? & ?
      & ? & ? & ? & ?).
    by exists pre, m, block, post, g1, g2. }
  destruct (current (scan lines)) as [[n nm]|]; [|done].
  destruct Hc as (pre & m & block & g & Hl & Hr & -> & Hb & Hbuf).
  rewrite lookup_insert. case_decide as Hk; [|done].
  intros [= <-]. exists pre, m, block, [], g, nm.
  rewrite app_nil_r, Hbuf. by split_and!.
Qed.

Lemma split_lines_key (lines : list string) (k : string) (v : migration) :
  split_lines lines !! k = Some v → fmt03 (int k) = k.
Proof.
  intros (pre & m & block & post & g1 & g2 & _ & _ & _ & _ & -> & _)
    %split_lines_unit_in.
  by rewrite int_fmt03.
Qed.

End Invariant.

Section Overwrite.

Lemma save_step_is_Some (st : state) (l k : string) :
  is_Some (save st !! k) → is_Some (save (step st l) !! k).
Proof.
  intros H. destruct (re_match l) as [[g1 g2]|] eqn:Hl.
  - rewrite (step_marker _ _ _ _ Hl). unfold save at 1. simpl.
    rewrite lookup_insert. by case_decide.
  - apply is_marker_false in Hl. rewrite step_plain by done.
    revert H. unfold save. simpl.
    destruct (current st) as [[n nm]|]; [|done].
    rewrite !lookup_insert. by case_decide.
Qed.

Lemma save_foldl_is_Some (ls : list string) (st : state) (k : string) :
  is_Some (save st !! k) → is_Some (save (foldl step st ls) !! k).
Proof.
  revert st. induction ls as [|l ls IH]; intros st H; [done|].
  simpl. by apply IH, save_step_is_Some.
Qed.

Lemma marker_key_present (lines : list string) (l g1 g2 : string) :
  l ∈ lines → re_match l = Some (g1, g2) →
  is_Some (split_lines lines !! fmt03 (int g1)).
Proof.
  intros (A & B & ->)%list_elem_of_split Hl.
  unfold split_lines, scan. rewrite foldl_app. simpl.
  apply save_foldl_is_Some. rewrite (step_marker _ _ _ _ Hl).
  unfold save. simpl. rewrite lookup_insert_eq. by eexists.
Qed.

Lemma save_keeps (st : state) (n0 : N) (v : migration) :
  migrations st !! fmt03 n0 = Some v →
  (∀ n nm, current st = Some (n, nm) → n ≠ n0) →
  save st !! fmt03 n0 = Some v.
Proof.
  intros Hv Hc. unfold save. destruct (current st) as [[n nm]|]; [|done].
  rewrite lookup_insert_ne; [done|]. intros ?%(inj fmt03). by eapply Hc.
Qed.

Lemma save_foldl_keeps (ls : list string) (st : state) (n0 : N) (v : migration) :
  migrations st !! fmt03 n0 = Some v →
  (∀ n nm, current st = Some (n, nm) → n ≠ n0) →
  Forall (other_number n0) ls →
  save (foldl step st ls) !! fmt03 n0 = Some v.
Proof.
  intros Hv Hc Hls. revert st Hv Hc.
  induction Hls as [|l ls Hl _ IH]; intros st Hv Hc; simpl.
  - by apply save_keeps.
  - apply IH.
    + destruct (re_match l) as [[g1 g2]|] eqn:Hm.
      * rewrite (step_marker _ _ _ _ Hm). simpl. by apply save_keeps.
      * apply is_marker_false in Hm. by rewrite step_plain.
    + destruct (re_match l) as [[g1 g2]|] eqn:Hm.
      * rewrite (step_marker _ _ _ _ Hm). simpl. intros n nm [= <- <-].
        by eapply Hl.
      * apply is_marker_false in Hm. by rewrite step_plain.
Qed.

(** The open unit survives whatever follows, as long as no later marker
    carries its number. *)
Lemma last_wins (post : list string) (st : state) (n0 : N) (nm : string) :
  current st = Some (n0, nm) → at_boundary post →
  Forall (other_number n0) post →
  save (foldl step st post) !! fmt03 n0
    = Some {| name := nm; content := join_nl (buffer st) |}.
Proof.
  intros Hc Hb Hpost.
  assert (save st !! fmt03 n0
    = Some {| name := nm; content := join_nl (buffer st) |}) as Hs.
  { unfold save. rewrite Hc. by rewrite lookup_insert_eq. }
  destruct post as [|m' post]; [done|].
  simpl in Hb. apply is_marker_true in Hb as (g1 & g2 & Hm).
  apply Forall_cons in Hpost as [Hm' Hpost].
  simpl. rewrite (step_marker _ _ _ _ Hm).
  apply save_foldl_keeps; [exact Hs| |exact Hpost].
  simpl. intros n nm' [= ? ?]; subst. by eapply Hm'.
Qed.

Lemma filter_unit_of_ne (l : list (string * migration)) (k : string) :
  fmt03 (int k) = k →
  Forall (λ kv, fmt03 (int kv.1) = kv.1) l → k ∉ l.*1 →
  filter (λ u : N * string * string, u.1.1 = int k) (unit_of <$> l) = [].
Proof.
  intros Hfk. induction 1 as [|[k' v'] l Hk' _ IH]; intros Hk; [done|].
  apply not_elem_of_cons in Hk as [Hne Hk]. simpl in *.
  rewrite filter_cons_False; [by apply IH|].
  simpl. intros Heq. apply Hne. by rewrite <- Hk', <- Hfk, Heq.
Qed.

(** Exactly one emitted unit carries the sequence number of a key. *)
Lemma filter_units (m : gmap string migration) (k : string) (v : migration) :
  (∀ k' v', m !! k' = Some v' → fmt03 (int k') = k') →
  m !! k = Some v →
  filter (λ u : N * string * string, u.1.1 = int k) (units m)
    = [(int k, name v, content v)].
Proof.
  intros Hkeys Hkv. unfold units.
  assert (fmt03 (int k) = k) as Hfk by eauto.
  assert (Forall (λ kv, fmt03 (int kv.1) = kv.1) (emitted m)) as Hall.
  { apply Forall_forall. intros [k' v'] Hin%elem_of_emitted. by eapply Hkeys. }
  apply elem_of_emitted in Hkv. pose proof (NoDup_emitted_keys m) as Hnd.
  induction (emitted m) as [|[k' v'] l IH]; [by apply elem_of_nil in Hkv|].
  apply Forall_cons in Hall as [Hk' Hall].
  apply NoDup_cons in Hnd as [Hnin Hnd]. simpl in *.
  apply elem_of_cons in Hkv as [[= <- <-]|Hin].
  - rewrite filter_cons_True by done.
    by rewrite filter_unit_of_ne.
  - rewrite filter_cons_False; [by apply IH|].
    simpl. intros Heq. apply Hnin.
    assert (k' = k) as -> by (by rewrite <- Hk', <- Hfk, Heq).
    by apply (list_elem_of_fmap_2' fst _ (k, v)).
Qed.

End Overwrite.

(** ** The groups of a match *)

Section PatternGroups.

Lemma re_match_inv (line g1 g2 : string) :
  re_match line = Some (g1, g2) →
  ∃ c nm r,
    g2 = String c nm
    ∧ line = "-- Migration: " +:+ g1 +:+ String "_" (String c r)
    ∧ g1 ≠ "" ∧ all_digits g1 = true
    ∧ Ascii.eqb c newline = false ∧ lazy_until_sql r = Some nm.
Proof.
  unfold re_match.
  destruct (strip_prefix _ line) as [r0|] eqn:Hp; [|done].
  apply strip_prefix_Some in Hp as ->.
  destruct (take_digits r0) as [ds r1] eqn:Hd.
  apply take_digits_sound in Hd as [-> Hds].
  destruct ds as [|d ds]; [done|].
  destruct r1 as [|u r1]; [done|].
  destruct (decide (u = "_"%char)) as [->|Hu];
    [|by destruct u as [[] [] [] [] [] [] [] []]].
  destruct r1 as [|c r]; [done|].
  destruct (Ascii.eqb c newline) eqn:Hc; [done|].
  destruct (lazy_until_sql r) as [nm|] eqn:Hl; [|done].
  intros [= <- <-]. by exists c, nm, r.
Qed.

Lemma re_match_intro (g1 : string) (c : ascii) (nm r : string) :
  g1 ≠ "" → all_digits g1 = true →
  Ascii.eqb c newline = false → lazy_until_sql r = Some nm →
  re_match ("-- Migration: " +:+ g1 +:+ String "_" (String c r))
  = Some (g1, String c nm).
Proof.
  intros Hne Hds Hc Hl. unfold re_match.
  rewrite strip_prefix_app, take_digits_app by done.
  destruct g1 as [|d ds]; [done|]. cbv iota beta. by rewrite Hc, Hl.
Qed.

(** The lazy group stops at the first [.sql]. *)
Lemma lazy_until_sql_shortest (s nm nm' rest' : string) :
  lazy_until_sql s = Some nm → s = nm' +:+ ".sql" +:+ rest' →
  (String.length nm ≤ String.length nm')%nat.
Proof.
  revert nm nm'. induction s as [|c s IH]; intros nm nm'; [done|].
  cbn [lazy_until_sql].
  destruct (strip_prefix ".sql" (String c s)) as [x|] eqn:Hp.
  - intros [= <-] _. simpl. lia.
  - destruct (Ascii.eqb c newline); [done|].
    destruct (lazy_until_sql s) as [nm0|] eqn:Hl; [|done].
    intros [= <-] Hs. destruct nm' as [|c' nm'].
    + assert (strip_prefix ".sql" (String c s) = Some rest') as Hq
        by (by apply strip_prefix_Some).
      congruence.
    + simpl in Hs. injection Hs as -> ->. simpl.
      pose proof (IH nm0 nm' eq_refl eq_refl). lia.
Qed.

Lemma strip_prefix_extend (p s r extra : string) :
  strip_prefix p s = Some r →
  strip_prefix p (s +:+ extra) = Some (r +:+ extra).
Proof.
  intros ->%strip_prefix_Some. by rewrite str_app_assoc, strip_prefix_app.
Qed.

Lemma lazy_until_sql_extend (s nm extra : string) :
  lazy_until_sql s = Some nm → lazy_until_sql (s +:+ extra) = Some nm.
Proof.
  revert nm. induction s as [|c s IH]; intros nm; [done|].
  change (String c s +:+ extra) with (String c (s +:+ extra)).
  cbn [lazy_until_sql].
  destruct (strip_prefix ".sql" (String c s)) as [x|] eqn:Hp.
  - intros [= <-].
    change (String c (s +:+ extra)) with (String c s +:+ extra).
    by rewrite (strip_prefix_extend _ _ _ _ Hp).
  - destruct (Ascii.eqb c newline); [done|].
    destruct (lazy_until_sql s) as [nm0|] eqn:Hl; [|done].
    intros [= <-]. rewrite (IH nm0 eq_refl).
    destruct (strip_prefix ".sql" (String c (s +:+ extra))) as [y|] eqn:Hq;
      [|done].
    exfalso. apply strip_prefix_Some in Hq. simpl in Hq.
    injection Hq as -> Hq.
    destruct (lazy_until_sql_sound _ _ Hl) as (rest & -> & _).
    clear IH Hl. simpl in Hp.
    destruct nm0 as [|a [|b [|d nm0]]]; simpl in Hq, Hp;
      try (injection Hq as ? Hq; subst);
      try (injection Hq as ? Hq; subst);
      try (injection Hq as ? Hq; subst);
      by rewrite ?Ascii.eqb_refl in Hp.
Qed.

Lemma str_app_eq_length (a a' b b' : string) :
  a +:+ b = a' +:+ b' → String.length a = String.length a' → a = a'.
Proof.
  revert a'. induction a as [|c a IH]; intros [|c' a']; try done.
  simpl. intros [= -> Heq] [= Hlen]. f_equal. by apply IH.
Qed.

Lemma re_match_extend (line g1 g2 extra : string) :
  re_match line = Some (g1, g2) → re_match (line +:+ extra) = Some (g1, g2).
Proof.
  intros (c & nm & r & -> & -> & Hne & Hds & Hc & Hl)%re_match_inv.
  rewrite !str_app_assoc.
  change (String "_" (String c r) +:+ extra)
    with (String "_" (String c (r +:+ extra))).
  apply re_match_intro; try done. by apply lazy_until_sql_extend.
Qed.

(** The groups of a match, said without the matcher: the digits in front
    of the underscore, and the shortest name that [.sql] follows. *)
Lemma re_match_groups (line g1 g2 : string) :
  re_match line = Some (g1, g2) ↔
  ∃ rest,
    line = "-- Migration: " +:+ g1 +:+ "_" +:+ g2 +:+ ".sql" +:+ rest
    ∧ g1 ≠ "" ∧ all_digits g1 = true ∧ g2 ≠ "" ∧ no_newline g2 = true
    ∧ ∀ nm rest',
        nm ≠ "" →
        line = "-- Migration: " +:+ g1 +:+ "_" +:+ nm +:+ ".sql" +:+ rest' →
        (String.length g2 ≤ String.length nm)%nat.
Proof.
  split.
  - intros (c & nm & r & -> & -> & Hne & Hds & Hc & Hl)%re_match_inv.
    destruct (lazy_until_sql_sound _ _ Hl) as (rest & Hr & Hn).
    exists rest. split_and!; try done.
    + by rewrite Hr.
    + simpl. by rewrite Hc, Hn.
    + intros nm' rest' Hnm' Heq.
      apply (inj (String.app _)), (inj (String.app _)) in Heq.
      destruct nm' as [|c' nm']; [done|]. simpl in Heq.
      injection Heq as <- Heq. simpl.
      pose proof (lazy_until_sql_shortest _ _ _ _ Hl Heq). lia.
  - intros (rest & -> & Hne & Hds & Hg2 & Hn & Hmin).
    destruct g2 as [|c nm0]; [done|]. simpl in Hn.
    apply andb_true_iff in Hn as [Hc Hn]. apply negb_true_iff in Hc.
    destruct (lazy_until_sql_complete nm0 rest Hn) as [x Hx].
    destruct (lazy_until_sql_sound _ _ Hx) as (rest_x & Hr & _).
    pose proof (lazy_until_sql_shortest _ _ _ _ Hx eq_refl) as Hle.
    assert (String.length (String c nm0) ≤ String.length (String c x))%nat
      as Hge.
    { apply (Hmin (String c x) rest_x); [done|].
      change ("_" +:+ String c nm0 +:+ ".sql" +:+ rest)
        with (String "_" (String c (nm0 +:+ ".sql" +:+ rest))).
      by rewrite Hr. }
    simpl in Hge.
    assert (x = nm0) as <-.
    { symmetry in Hr. apply (str_app_eq_length _ _ _ _ Hr). lia. }
    change ("_" +:+ String c x +:+ ".sql" +:+ rest)
      with (String "_" (String c (x +:+ ".sql" +:+ rest))).
    by apply re_match_intro.
Qed.

End PatternGroups.

(** ** The marker that decides a key *)

Section LastMarker.

Lemma other_number_dec (n : N) (l : string) :
  {other_number n l} + {∃ g1 g2, re_match l = Some (g1, g2) ∧ int g1 = n}.
Proof.
  unfold other_number. destruct (re_match l) as [[g1 g2]|].
  - destruct (decide (int g1 = n)) as [Heq|Hne].
    + right. by exists g1, g2.
    + left. by intros ?? [= <- <-].
  - left. by intros ?? [=].
Qed.

(** Among the lines there is a last marker with a number that occurs. *)
Lemma last_marker (lines : list string) (n : N) :
  Exists (λ l, ∃ g1 g2, re_match l = Some (g1, g2) ∧ int g1 = n) lines →
  ∃ pre m rest g1 g2,
    lines = pre ++ m :: rest ∧ re_match m = Some (g1, g2) ∧ int g1 = n
    ∧ Forall (other_number n) rest.
Proof.
  induction lines as [|l lines IH] using rev_ind.
  - by intros ?%Exists_nil.
  - intros Hex. destruct (other_number_dec n l) as [Ho|(g1 & g2 & Hm & Hn)].
    + apply Exists_app in Hex as [Hex|Hex].
      * destruct (IH Hex) as (pre & m & rest & g1 & g2 & -> & Hm & Hn & Hr).
        exists pre, m, (rest ++ [l]), g1, g2.
        split_and!; [by rewrite <- app_assoc|done..|].
        apply Forall_app. split; [done|]. by constructor.
      * apply Exists_cons in Hex as [(g1 & g2 & Hm & Hn)|?%Exists_nil];
          [|done]. by destruct (Ho g1 g2 Hm).
    + exists lines, l, [], g1, g2. by split_and!.
Qed.

(** The lines after a marker: the plain ones, then a boundary. *)
Lemma plain_split (rest : list string) :
  ∃ block post, rest = block ++ post ∧ plain block ∧ at_boundary post.
Proof.
  induction rest as [|l rest (block & post & -> & Hb & Hp)].
  - by exists [], []; split_and!; [|constructor|].
  - destruct (is_marker l) eqn:Hl.
    + by exists [], (l :: block ++ post); split_and!; [|constructor|].
    + exists (l :: block), post. split_and!; [done| |done]. by constructor.
Qed.

(** What is stored under the key of a marker that is the last with its
    number. *)
Lemma split_lines_last (pre block post : list string) (m g1 g2 : string) :
  re_match m = Some (g1, g2) → plain block → at_boundary post →
  Forall (other_number (int g1)) post →
  split_lines (pre ++ m :: block ++ post) !! fmt03 (int g1)
  = Some {| name := g2; content := join_nl (m :: block) |}.
Proof.
  intros Hm Hb Hp Ho. unfold split_lines, scan.
  assert (pre ++ m :: block ++ post = pre ++ (m :: block) ++ post) as ->
    by done.
  rewrite 2!foldl_app, (foldl_step_block _ _ _ _ _ Hm Hb).
  by rewrite (last_wins post _ (int g1) g2).
Qed.

End LastMarker.

(** ** The Splitter: the properties *)

Section SplitterClaims.

Lemma elem_of_written_files (m : gmap string migration) (f body : string) :
  (f, body) ∈ written_files m ↔
  ∃ k v, m !! k = Some v ∧ f = k +:+ "_" +:+ name v +:+ ".sql" ∧ body = content v.
Proof.
  unfold written_files. rewrite list_elem_of_fmap. split.
  - intros ([k v] & [= -> ->] & Hin%elem_of_emitted). by exists k, v.
  - intros (k & v & Hin%elem_of_emitted & -> & ->). by exists (k, v).
Qed.

Lemma elem_of_units (m : gmap string migration) (t : N * string * string) :
  t ∈ units m ↔ ∃ k v, m !! k = Some v ∧ t = (int k, name v, content v).
Proof.
  unfold units. rewrite list_elem_of_fmap. split.
  - intros ([k v] & -> & Hin%elem_of_emitted). by exists k, v.
  - intros (k & v & Hin%elem_of_emitted & ->). by exists (k, v).
Qed.

(** C3, as the script behaves: a document without any marker line makes
    the Splitter complete normally, with no file written and no unit; no
    error is raised. *)
Theorem splitter_no_marker_completes (doc : string) :
  plain (split_nl doc) →
  run doc = Completed [] ∧ units (split_migrations doc) = [].
Proof.
  intros H. unfold run, written_files, units, split_migrations.
  by rewrite split_lines_plain, emitted_empty.
Qed.

Lemma splitter_no_marker_completes_witness :
  run "select 1;" = Completed [] ∧ units (split_migrations "select 1;") = [].
Proof. apply (splitter_no_marker_completes "select 1;"). by repeat constructor. Defined.

(** C3 as stated fails: on a document without marker lines the run does not
    end in [EmptyInputError]. *)
Lemma splitter_empty_input_counterexample :
  plain (split_nl "select 1;") ∧ run "select 1;" ≠ Raised EmptyInputError.
Proof. split; [by repeat constructor|discriminate]. Qed.

(** C4: when a sequence number occurs on two marker lines, the unit kept
    for it is the one of the later line (the last with that number): it has
    that line's name and the body accumulated from that line, it is the only
    emitted unit with this sequence number, and the run completes. *)
Theorem splitter_last_write_wins (doc : string)
    (pre mid block post : list string) (m1 m2 g1 nm1 g2 nm2 : string) :
  split_nl doc = pre ++ m1 :: mid ++ m2 :: block ++ post →
  re_match m1 = Some (g1, nm1) → re_match m2 = Some (g2, nm2) →
  int g1 = int g2 →
  plain block → at_boundary post → Forall (other_number (int g2)) post →
  split_migrations doc !! fmt03 (int g2)
    = Some {| name := nm2; content := join_nl (m2 :: block) |}
  ∧ filter (λ u : N * string * string, u.1.1 = int g2)
      (units (split_migrations doc))
    = [(int g2, nm2, join_nl (m2 :: block))]
  ∧ ∃ files, run doc = Completed files.
Proof.
  intros Hdoc Hm1 Hm2 Hsame Hblock Hpost Hother.
  assert (split_migrations doc !! fmt03 (int g2)
    = Some {| name := nm2; content := join_nl (m2 :: block) |}) as Hlook.
  { unfold split_migrations, split_lines, scan. rewrite Hdoc.
    assert (pre ++ m1 :: mid ++ m2 :: block ++ post
      = (pre ++ m1 :: mid) ++ (m2 :: block) ++ post) as ->
      by (by rewrite <- app_assoc).
    rewrite 2!foldl_app.
    rewrite (foldl_step_block _ _ _ _ _ Hm2 Hblock).
    by rewrite (last_wins post _ (int g2) nm2). }
  split_and!; [done| |by eexists].
  pose proof (filter_units (split_migrations doc) _ _
    (split_lines_key (split_nl doc)) Hlook) as Hf.
  by rewrite int_fmt03 in Hf.
Qed.

(** C5: the units the Splitter emits are exactly these: for every marker
    line that is the last with its number, the unit under the padded number,
    with the name the line gives and, as body, the marker line followed by the
    lines up to the next marker line or the end of the input, joined with
    newlines; and the lines in front of the first marker reach no unit. *)
Theorem splitter_unit_bodies (doc : string) :
  (∀ k v, split_migrations doc !! k = Some v ↔
     ∃ pre m block post g1 g2,
       split_nl doc = pre ++ m :: block ++ post
       ∧ re_match m = Some (g1, g2) ∧ k = fmt03 (int g1) ∧ name v = g2
       ∧ plain block ∧ at_boundary post
       ∧ Forall (other_number (int g1)) post
       ∧ content v = join_nl (m :: block))
  ∧ (∀ pre0 rest, split_nl doc = pre0 ++ rest → plain pre0 →
       split_migrations doc = split_lines rest).
Proof.
  split.
  - intros k v. split.
    + intros Hkv.
      destruct (split_lines_unit_in _ _ _ Hkv)
        as (pre' & m' & block' & post' & g1' & g2' & Hl' & Hm' & _ & _ & -> & _).
      destruct (last_marker (split_nl doc) (int g1'))
        as (pre & m & rest & g1 & g2 & Hl & Hm & Hn & Hrest).
      { rewrite Hl'. apply Exists_app. right. left. by exists g1', g2'. }
      destruct (plain_split rest) as (block & post & -> & Hb & Hp).
      apply Forall_app in Hrest as [_ Hpost].
      rewrite <- Hn in Hpost.
      pose proof (split_lines_last pre block post m g1 g2 Hm Hb Hp Hpost)
        as Hlast.
      rewrite <- Hl, Hn in Hlast. unfold split_migrations in Hkv.
      rewrite Hkv in Hlast. injection Hlast as ->.
      exists pre, m, block, post, g1, g2. rewrite <- Hn. by split_and!.
    + intros (pre & m & block & post & g1 & g2 & Hl & Hm & -> & Hname & Hb
        & Hp & Ho & Hcontent).
      unfold split_migrations. rewrite Hl.
      rewrite (split_lines_last pre block post m g1 g2 Hm Hb Hp Ho).
      destruct v as [nm body]. simpl in *. by subst.
  - intros pre0 rest Hdoc Hpre. unfold split_migrations. rewrite Hdoc.
    by apply split_lines_preamble.
Qed.

(** C9, as the script behaves: a line is a marker exactly when it begins
    with [-- Migration: ], one or more digits, an underscore, a non-empty
    name and [.sql]; whatever follows on the line is accepted.  The number
    is read from the digits in front of the underscore and the name is the
    shortest non-empty text after it that [.sql] follows; text added at the
    end of a marker line changes neither. *)
Theorem marker_iff_prefix_form (line : string) :
  (is_marker line = true ↔
   ∃ ds nm rest,
     line = "-- Migration: " +:+ ds +:+ "_" +:+ nm +:+ ".sql" +:+ rest
     ∧ ds ≠ "" ∧ all_digits ds = true ∧ nm ≠ "" ∧ no_newline nm = true)
  ∧ (∀ g1 g2,
       re_match line = Some (g1, g2) ↔
       ∃ rest,
         line = "-- Migration: " +:+ g1 +:+ "_" +:+ g2 +:+ ".sql" +:+ rest
         ∧ g1 ≠ "" ∧ all_digits g1 = true ∧ g2 ≠ "" ∧ no_newline g2 = true
         ∧ ∀ nm rest',
             nm ≠ "" →
             line = "-- Migration: " +:+ g1 +:+ "_" +:+ nm +:+ ".sql"
                    +:+ rest' →
             (String.length g2 ≤ String.length nm)%nat)
  ∧ (∀ g1 g2 extra,
       re_match line = Some (g1, g2) →
       re_match (line +:+ extra) = Some (g1, g2)
       ∧ is_marker (line +:+ extra) = true).
Proof.
  split_and!.
  - rewrite <- re_match_is_Some, is_marker_true. split.
    + intros (g1 & g2 & ->). by eexists.
    + intros [[g1 g2] ->]. by eexists _, _.
  - intros g1 g2. apply re_match_groups.
  - intros g1 g2 extra H%(re_match_extend _ _ _ extra). split; [done|].
    apply is_marker_true. by eexists _, _.
Qed.

Lemma marker_iff_prefix_form_witness :
  re_match ("-- Migration: 001_init.sql" +:+ " -- applied")
    = Some ("001", "init")
  ∧ is_marker ("-- Migration: 001_init.sql" +:+ " -- applied") = true.
Proof.
  apply (proj2 (proj2 (marker_iff_prefix_form "-- Migration: 001_init.sql"))
    "001" "init" " -- applied").
  reflexivity.
Defined.

(** C9 as stated fails: a line that carries text after the marker form is
    still taken as a marker. *)
Lemma marker_trailing_text_counterexample :
  SpecWords.spec_marker_form "-- Migration: 001_init.sql" = true
  ∧ SpecWords.spec_marker_form "-- Migration: 001_init.sql -- applied" = false
  ∧ re_match "-- Migration: 001_init.sql -- applied" = Some ("001", "init")
  ∧ is_marker "-- Migration: 001_init.sql -- applied" = true.
Proof. by vm_compute. Qed.

(** C10: the unit of an accepted marker line is stored under the parsed
    number padded with zeros to three digits, the file written for it is
    named with that key in front, and every file written is named from the
    padded number and the name of a marker line; the key consists of digits,
    reads back as the number, and has exactly three of them when the number
    is at most 999. *)
Theorem splitter_key_zero_padded (doc line g1 g2 : string) :
  line ∈ split_nl doc → re_match line = Some (g1, g2) →
  (∃ v, split_migrations doc !! fmt03 (int g1) = Some v
        ∧ (fmt03 (int g1) +:+ "_" +:+ name v +:+ ".sql", content v)
            ∈ written_files (split_migrations doc))
  ∧ (∀ f body, (f, body) ∈ written_files (split_migrations doc) →
       ∃ m d nm, m ∈ split_nl doc ∧ re_match m = Some (d, nm)
                 ∧ f = fmt03 (int d) +:+ "_" +:+ nm +:+ ".sql")
  ∧ all_digits (fmt03 (int g1)) = true
  ∧ int (fmt03 (int g1)) = int g1
  ∧ ((int g1 ≤ 999)%N → String.length (fmt03 (int g1)) = 3).
Proof.
  intros Hin Hm. split_and!.
  - destruct (marker_key_present _ _ _ _ Hin Hm) as [v Hv].
    exists v. split; [done|]. apply elem_of_written_files.
    by exists (fmt03 (int g1)), v.
  - intros f body (k & v & Hkv & -> & _)%elem_of_written_files.
    apply split_lines_unit_in in Hkv
      as (pre & m & block & post & d & nm & Hl & ? & _ & _ & -> & ->).
    exists m, d, nm. split_and!; try done.
    rewrite Hl. apply elem_of_app. right. by left.
  - apply all_digits_fmt03.
  - apply int_fmt03.
  - intros Hle. rewrite length_fmt03.
    pose proof (length_pretty_small _ Hle). lia.
Qed.

End SplitterClaims.

(** ** Round trip *)

Section RoundTrip.

Lemma save_foldl_step_units (us : list (N * string * string)) (st : state) :
  Forall own_marker_first us →
  save (foldl step st (concat (split_nl <$> us.*2))) = foldl store (save st) us.
Proof.
  intros Hus. revert st. induction Hus as [|u us Hu _ IH]; intros st; [done|].
  destruct Hu as (m & block & g1 & Hlines & Hm & Hseq & Hblock).
  rewrite !fmap_cons. simpl. rewrite foldl_app, IH. f_equal.
  rewrite Hlines. rewrite (foldl_step_block st _ _ _ _ Hm Hblock).
  unfold save at 1, store. cbn [current migrations buffer].
  by rewrite Hseq, <- Hlines, join_nl_split_nl.
Qed.

Lemma split_migrations_combine (us : list (N * string * string)) :
  Forall own_marker_first us →
  split_migrations (combine us) = foldl store ∅ us.
Proof.
  intros Hus. unfold split_migrations, combine.
  destruct us as [|u us]; [done|].
  rewrite split_nl_join_nl by done.
  unfold split_lines, scan. by rewrite save_foldl_step_units.
Qed.

Lemma lookup_foldl_store (us : list (N * string * string))
    (k : string) (v : migration) :
  NoDup us.*1.*1 →
  foldl store ∅ us !! k = Some v ↔
  ∃ u, u ∈ us ∧ k = fmt03 u.1.1 ∧ v = {| name := u.1.2; content := u.2 |}.
Proof.
  induction us as [|u us IH] using rev_ind; intros Hnd.
  - simpl. rewrite lookup_empty. split; [done|].
    by intros (u & ?%elem_of_nil & _).
  - rewrite !fmap_app in Hnd. simpl in Hnd.
    apply NoDup_app in Hnd as (Hnd & Hfresh & _).
    rewrite foldl_snoc. unfold store at 1. rewrite lookup_insert.
    case_decide as Hk.
    + subst k. split.
      * intros [= <-]. exists u. split_and!; try done.
        apply elem_of_app. right. by left.
      * intros (u' & [Hin|Hin%list_elem_of_singleton]%elem_of_app & Hk & ->).
        -- exfalso. apply (inj fmt03) in Hk. apply (Hfresh u.1.1); [|by left].
           rewrite Hk. by do 2 apply list_elem_of_fmap_2.
        -- by subst.
    + rewrite IH by done. split.
      * intros (u' & Hin & -> & ->). exists u'. split_and!; try done.
        apply elem_of_app. by left.
      * intros (u' & [Hin|Hin%list_elem_of_singleton]%elem_of_app & -> & ->).
        -- by exists u'.
        -- by subst.
Qed.

(** C6, as the script behaves: for units with pairwise distinct sequence
    numbers, each with a body that begins with its own marker line and holds
    no other marker line, splitting the document made of the bodies in
    order, joined with a newline between one body and the next, gives back
    exactly these (sequence, name, body) triples. *)
Theorem splitter_round_trip (us : list (N * string * string)) :
  NoDup us.*1.*1 → Forall own_marker_first us →
  ∀ t, t ∈ units (split_migrations (combine us)) ↔ t ∈ us.
Proof.
  intros Hnd Hus t. rewrite elem_of_units, split_migrations_combine by done.
  split.
  - intros (k & v & Hkv & ->).
    apply lookup_foldl_store in Hkv as (u & Hin & -> & ->); [|done].
    simpl. rewrite int_fmt03. by destruct u as [[??]?].
  - intros Hin. exists (fmt03 t.1.1), {| name := t.1.2; content := t.2 |}.
    split; [apply lookup_foldl_store; eauto|].
    simpl. rewrite int_fmt03. by destruct t as [[??]?].
Qed.

End RoundTrip.

Section SplitterWitnesses.

Lemma splitter_round_trip_witness :
  (12%N, "add_index",
   join_nl ["-- Migration: 12_add_index.sql"; "create index i on t (id);"])
    ∈ units (split_migrations (combine two_units))
  ↔ (12%N, "add_index",
     join_nl ["-- Migration: 12_add_index.sql"; "create index i on t (id);"])
    ∈ two_units.
Proof.
  apply (splitter_round_trip two_units).
  - by apply (bool_decide_unpack _).
  - repeat constructor.
    + by exists "-- Migration: 001_init.sql", ["create table t (id int);"; ""], "001";
        split_and!; try done; repeat constructor.
    + by exists "-- Migration: 12_add_index.sql", ["create index i on t (id);"], "12";
        split_and!; try done; repeat constructor.
Defined.

(** C6 as stated fails: when the bodies are put end to end with nothing in
    between, a body that ends with a newline comes back without it, and a
    body that does not end with one swallows the next marker. *)
Lemma splitter_round_trip_counterexample :
  (NoDup two_units.*1.*1 ∧ Forall own_marker_first two_units
   ∧ (1%N, "init",
      join_nl ["-- Migration: 001_init.sql"; "create table t (id int);"; ""])
       ∈ two_units
   ∧ (1%N, "init",
      join_nl ["-- Migration: 001_init.sql"; "create table t (id int);"; ""])
       ∉ units (split_migrations (concatenation two_units)))
  ∧ (NoDup two_units_unterminated.*1.*1
     ∧ Forall own_marker_first two_units_unterminated
     ∧ (12%N, "add_index",
        join_nl ["-- Migration: 12_add_index.sql"; "create index i on t (id);"])
         ∈ two_units_unterminated
     ∧ (12%N, "add_index",
        join_nl ["-- Migration: 12_add_index.sql"; "create index i on t (id);"])
         ∉ units (split_migrations (concatenation two_units_unterminated))).
Proof.
  split; split_and!.
  - by apply (bool_decide_unpack _).
  - repeat constructor.
    + by exists "-- Migration: 001_init.sql", ["create table t (id int);"; ""], "001";
        split_and!; try done; repeat constructor.
    + by exists "-- Migration: 12_add_index.sql", ["create index i on t (id);"], "12";
        split_and!; try done; repeat constructor.
  - by left.
  - apply (bool_decide_unpack _). by vm_compute.
  - by apply (bool_decide_unpack _).
  - repeat constructor.
    + by exists "-- Migration: 001_init.sql", ["create table t (id int);"], "001";
        split_and!; try done; repeat constructor.
    + by exists "-- Migration: 12_add_index.sql", ["create index i on t (id);"], "12";
        split_and!; try done; repeat constructor.
  - right. by left.
  - apply (bool_decide_unpack _). by vm_compute.
Qed.

Lemma splitter_last_write_wins_witness :
  split_migrations doc_with_duplicate !! fmt03 (int "1")
    = Some {| name := "b"; content := join_nl ["-- Migration: 1_b.sql"; "y"] |}
  ∧ filter (λ u : N * string * string, u.1.1 = int "1")
      (units (split_migrations doc_with_duplicate))
    = [(int "1", "b", join_nl ["-- Migration: 1_b.sql"; "y"])]
  ∧ ∃ files, run doc_with_duplicate = Completed files.
Proof.
  apply (splitter_last_write_wins doc_with_duplicate [] ["x"] ["y"] []
    "-- Migration: 001_a.sql" "-- Migration: 1_b.sql" "001" "a" "1" "b");
    try reflexivity; by repeat constructor.
Defined.

Lemma splitter_unit_bodies_witness :
  split_migrations (combine two_units) !! "001"
  = Some {| name := "init";
            content := join_nl ["-- Migration: 001_init.sql";
                                "create table t (id int);"; ""] |}.
Proof.
  apply (proj1 (splitter_unit_bodies (combine two_units))).
  exists [], "-- Migration: 001_init.sql", ["create table t (id int);"; ""],
    ["-- Migration: 12_add_index.sql"; "create index i on t (id);"],
    "001", "init".
  split_and!; try reflexivity.
  - by repeat constructor.
  - repeat constructor; intros g1 g2 [= <- <-]; by vm_compute.
Defined.

Lemma splitter_key_zero_padded_witness :
  (∃ v, split_migrations doc_with_preamble !! fmt03 (int "7") = Some v
        ∧ (fmt03 (int "7") +:+ "_" +:+ name v +:+ ".sql", content v)
            ∈ written_files (split_migrations doc_with_preamble))
  ∧ (∀ f body, (f, body) ∈ written_files (split_migrations doc_with_preamble) →
       ∃ m d nm, m ∈ split_nl doc_with_preamble ∧ re_match m = Some (d, nm)
                 ∧ f = fmt03 (int d) +:+ "_" +:+ nm +:+ ".sql")
  ∧ all_digits (fmt03 (int "7")) = true
  ∧ int (fmt03 (int "7")) = int "7"
  ∧ ((int "7" ≤ 999)%N → String.length (fmt03 (int "7")) = 3).
Proof.
  apply (splitter_key_zero_padded doc_with_preamble "-- Migration: 7_init.sql"
    "7" "init"); [|reflexivity].
  apply (bool_decide_unpack _). vm_compute. reflexivity.
Defined.

(** The example of C10: the marker [-- Migration: 7_init.sql] is written
    as [007_init.sql]. *)
Example written_files_example :
  written_files (split_migrations doc_with_preamble)
  = [("007_init.sql",
      join_nl ["-- Migration: 7_init.sql"; "create table t (id int);"])].
Proof. vm_compute. reflexivity. Qed.

End SplitterWitnesses.

(** ** Reading a script *)

Import ScriptStore Reading Engine.

Section ReadingFacts.

Lemma universal_newlines_cons (c : ascii) (s : string) :
  universal_newlines (String c s) =
    if Ascii.eqb c carriage_return then
      String newline
        match s with
        | String d r => if Ascii.eqb d newline then universal_newlines r
                        else universal_newlines s
        | EmptyString => ""
        end
    else String c (universal_newlines s).
Proof.
  destruct s as [|d r]; cbn [universal_newlines]; [done|].
  by destruct (Ascii.eqb c carriage_return), (Ascii.eqb d newline).
Qed.

Lemma universal_newlines_no_cr_aux (s : string) :
  has_cr (universal_newlines s) = false
  ∧ ∀ c, has_cr (universal_newlines (String c s)) = false.
Proof.
  induction s as [|d r [IH1 IH2]].
  - split; [done|]. intros c. simpl.
    destruct (Ascii.eqb c carriage_return) eqn:Hc; simpl; by rewrite ?Hc.
  - split; [by apply IH2|]. intros c.
    rewrite universal_newlines_cons.
    destruct (Ascii.eqb c carriage_return) eqn:Hc.
    + destruct (Ascii.eqb d newline); cbn [has_cr]; [by rewrite IH1|].
      by rewrite (IH2 d).
    + cbn [has_cr]. by rewrite Hc, (IH2 d).
Qed.

Lemma universal_newlines_no_cr (s : string) :
  has_cr (universal_newlines s) = false.
Proof. apply universal_newlines_no_cr_aux. Qed.

Lemma universal_newlines_id (s : string) :
  has_cr s = false → universal_newlines s = s.
Proof.
  induction s as [|c r IH]; [done|]. simpl.
  intros [Hc Hr]%orb_false_iff. rewrite Hc. by rewrite IH.
Qed.

Lemma read_file_Some (fs : gmap string string) (f sql : string) :
  read_file fs f = Some sql ↔
  ∃ bytes, fs !! f = Some bytes ∧ utf8_valid bytes = true
           ∧ sql = universal_newlines bytes.
Proof.
  unfold read_file, read_text. split.
  - destruct (fs !! f) as [bytes|]; [|done]. simpl.
    destruct (utf8_valid bytes) eqn:Hv; [|done]. intros [= <-]. by exists bytes.
  - intros (bytes & -> & Hv & ->). simpl. by rewrite Hv.
Qed.

End ReadingFacts.

(** ** The Engine *)

Section EngineFacts.

Context {DB Cause : Type} (exec_sql : DB → string → Cause + DB).

Lemma execute_live_ok (db db' : DB) (sql : string) :
  exec_sql db sql = inr db' → execute exec_sql (live db) sql = inr (live db').
Proof. intros H. unfold execute. simpl. by rewrite H. Qed.

Lemma execute_live_failed (db : DB) (sql : string) (e : Cause) :
  exec_sql db sql = inl e → execute exec_sql (live db) sql = inl e.
Proof. intros H. unfold execute. simpl. by rewrite H. Qed.

(** The units that succeed are passed over one by one. *)
Lemma execute_each_prefix (fs : gmap string string)
    (pre rest : list string) (sqls_pre : list string) (db db' : DB) (i : nat)
    (log : list (nat * string * status Cause)) (sqls : list string) :
  Forall2 (λ f sql, read_file fs f = Some sql) pre sqls_pre →
  apply_all exec_sql db sqls_pre = Some db' →
  execute_each exec_sql fs (live db) i (pre ++ rest) log sqls
  = execute_each exec_sql fs (live db') (i + length pre) rest
      (log ++ ok_from i pre) (sqls ++ sqls_pre).
Proof.
  intros Hread. revert db i log sqls.
  induction Hread as [|f sql pre sqls_pre Hf _ IH]; intros db i log sqls Hall.
  - simpl in *. injection Hall as ->.
    by rewrite Nat.add_0_r, !app_nil_r.
  - simpl in Hall. destruct (exec_sql db sql) as [e|db1] eqn:Hexec; [done|].
    cbn [app execute_each]. rewrite Hf, (execute_live_ok _ _ _ Hexec).
    rewrite (IH _ _ _ _ Hall). simpl.
    by rewrite Nat.add_succ_r, <- !app_assoc.
Qed.

(** The connection is closed exactly on the path that ends with status 0. *)
Lemma execute_each_closed (fs : gmap string string) (files : list string)
    (c : connection DB) (i : nat) (log : list (nat * string * status Cause))
    (sqls : list string) :
  closed c = false →
  ∃ c', conn (execute_each exec_sql fs c i files log sqls) = Some c'
        ∧ (closed c' = true ↔
           exit_status (execute_each exec_sql fs c i files log sqls) = 0).
Proof.
  revert c i log sqls. induction files as [|f rest IH]; intros c i log sqls Hc.
  - simpl. by eexists.
  - simpl. destruct (read_file fs f) as [sql|].
    + destruct (execute exec_sql c sql) as [e|c1] eqn:He.
      * simpl. exists c. split; [done|]. rewrite Hc. split; done.
      * apply IH. unfold execute in He.
        destruct (exec_sql (working c) sql); [done|]. by injection He as <-.
    + simpl. exists c. split; [done|]. rewrite Hc. split; done.
Qed.

Lemma apply_files_closed (fs : gmap string string) (files : list string)
    (db : DB) :
  ∃ c, conn (apply_files exec_sql (inr db) fs files) = Some c
       ∧ (closed c = true ↔
          exit_status (apply_files exec_sql (inr db) fs files) = 0).
Proof. unfold apply_files. by apply execute_each_closed. Qed.

(** The texts executed are the texts read from a front part of the files. *)
Lemma execute_each_executed (fs : gmap string string) (files seen : list string)
    (c : connection DB) (i : nat) (log : list (nat * string * status Cause))
    (sqls : list string) :
  Forall2 (λ f sql, read_file fs f = Some sql) seen sqls →
  ∃ ran, ran `prefix_of` files
    ∧ Forall2 (λ f sql, read_file fs f = Some sql) (seen ++ ran)
        (executed (execute_each exec_sql fs c i files log sqls)).
Proof.
  revert seen c i log sqls.
  induction files as [|f rest IH]; intros seen c i log sqls Hseen.
  - exists []. simpl. by rewrite app_nil_r.
  - simpl. destruct (read_file fs f) as [sql|] eqn:Hf.
    + destruct (execute exec_sql c sql) as [e|c1].
      * exists [f]. split; [by exists rest|]. simpl.
        apply Forall2_app; [done|]. by constructor.
      * destruct (IH (seen ++ [f]) c1 (S i) (log ++ [(i, f, OK)])
          (sqls ++ [sql])) as (ran & Hpre & Hran).
        { apply Forall2_app; [done|]. by constructor. }
        exists (f :: ran). split; [by apply prefix_cons|].
        by rewrite <- app_assoc in Hran.
    + exists []. split; [apply prefix_nil|]. simpl. by rewrite app_nil_r.
Qed.

End EngineFacts.

Section EngineClaims.

Context {DB Cause : Type} (exec_sql : DB → string → Cause + DB).

(** C1: when the execution of a unit fails, after the units in front of it
    have run, the Engine has reported each of those as OK in order, reports
    the failing unit as FAILED with the cause, has passed no later unit to
    the database, ends with status 1, and leaves the database in the state
    reached by the units in front, each committed by itself. *)
Theorem engine_fail_fast (fs : gmap string string) (db0 dbk : DB)
    (pre post : list string) (f : string) (sqls_pre : list string)
    (sql : string) (cause : Cause) :
  Forall2 (λ f sql, read_file fs f = Some sql) pre sqls_pre →
  apply_all exec_sql db0 sqls_pre = Some dbk →
  read_file fs f = Some sql →
  exec_sql dbk sql = inl cause →
  apply_files exec_sql (inr db0) fs (pre ++ f :: post)
  = {| exit_status := 1;
       report := ok_from 1 pre ++ [(S (length pre), f, FAILED cause)];
       executed := sqls_pre ++ [sql];
       conn := Some {| autocommit := true; committed := dbk;
                       working := dbk; closed := false |} |}.
Proof.
  intros Hpre Hall Hf Hfail. unfold apply_files.
  change (set_autocommit (connect db0)) with (live db0).
  rewrite (execute_each_prefix _ _ _ _ _ _ _ _ _ _ Hpre Hall).
  cbn [execute_each]. by rewrite Hf, (execute_live_failed _ _ _ _ Hfail).
Qed.

(** C8, as the scripts behave: every text passed to the database is the
    content of its file read in text mode, that is with each CRLF and each
    lone CR replaced by LF and nothing else changed; it holds no CR, and
    it is the content itself when the file holds no CR.  The same holds for
    the single-file script. *)
Theorem executed_text_is_translated (server : Cause + DB)
    (fs : gmap string string) (files : list string) :
  (∀ j sql,
     executed (apply_files exec_sql server fs files) !! j = Some sql →
     ∃ f bytes,
       files !! j = Some f ∧ fs !! f = Some bytes
       ∧ sql = universal_newlines bytes
       ∧ has_cr sql = false
       ∧ (has_cr bytes = false → sql = bytes))
  ∧ (∀ f sql,
       sql ∈ executed (run_migration exec_sql server fs f) →
       ∃ bytes, fs !! f = Some bytes ∧ sql = universal_newlines bytes
                ∧ has_cr sql = false
                ∧ (has_cr bytes = false → sql = bytes)).
Proof.
  split.
  - intros j sql Hj. unfold apply_files in Hj.
    destruct server as [e|db]; [done|].
    destruct (execute_each_executed exec_sql fs files []
      (set_autocommit (connect db)) 1 [] []) as (ran & Hpre & Hran);
      [constructor|].
    simpl in Hran.
    destruct (Forall2_lookup_r _ _ _ _ _ Hran Hj) as (f & Hf & Hread).
    apply read_file_Some in Hread as (bytes & Hbytes & _ & ->).
    exists f, bytes. split_and!; try done.
    + by eapply prefix_lookup_Some.
    + apply universal_newlines_no_cr.
    + apply universal_newlines_id.
  - intros f sql. unfold run_migration.
    destruct (read_file fs f) as [sql'|] eqn:Hread;
      [|by intros ?%elem_of_nil].
    apply read_file_Some in Hread as (bytes & Hbytes & _ & ->).
    intros Hin. assert (sql = universal_newlines bytes) as ->.
    { destruct server as [e|db]; [by apply elem_of_nil in Hin|].
      destruct (execute _ _ _); simpl in Hin;
        by apply list_elem_of_singleton in Hin. }
    exists bytes. split_and!; try done.
    + apply universal_newlines_no_cr.
    + apply universal_newlines_id.
Qed.

End EngineClaims.

Section EngineWitnesses.

Lemma engine_fail_fast_witness :
  apply_files sample_exec (inr []) sample_fs
    (["001_init.sql"] ++ "002_broken.sql" :: ["003_more.sql"])
  = {| exit_status := 1;
       report := ok_from 1 ["001_init.sql"]
                 ++ [(2, "002_broken.sql", FAILED "syntax error")];
       executed := ["create table t (id int);"] ++ ["oops"];
       conn := Some {| autocommit := true;
                       committed := ["create table t (id int);"];
                       working := ["create table t (id int);"];
                       closed := false |} |}.
Proof.
  apply (engine_fail_fast sample_exec sample_fs [] ["create table t (id int);"]
    ["001_init.sql"] ["003_more.sql"] "002_broken.sql"
    ["create table t (id int);"] "oops" "syntax error").
  - by repeat constructor.
  - reflexivity.
  - reflexivity.
  - reflexivity.
Defined.

Lemma executed_text_is_translated_witness :
  ∃ bytes, crlf_fs !! "001_init.sql" = Some bytes
    ∧ "select 1;" +:+ String newline "" = universal_newlines bytes
    ∧ has_cr ("select 1;" +:+ String newline "") = false
    ∧ (has_cr bytes = false → "select 1;" +:+ String newline "" = bytes).
Proof.
  apply (proj2 (executed_text_is_translated sample_exec (inr []) crlf_fs [])
    "001_init.sql" ("select 1;" +:+ String newline "")).
  vm_compute. by left.
Defined.

(** C8 as stated fails: a file with a CRLF line end is executed with LF. *)
Lemma executed_text_crlf_counterexample :
  crlf_fs !! "001_init.sql"
    = Some ("select 1;" +:+ String carriage_return (String newline ""))
  ∧ migration_files ["001_init.sql"] = ["001_init.sql"]
  ∧ executed (run_migrations sample_exec (inr []) crlf_fs ["001_init.sql"])
    = ["select 1;" +:+ String newline ""]
  ∧ executed (run_migration sample_exec (inr []) crlf_fs "001_init.sql")
    = ["select 1;" +:+ String newline ""]
  ∧ "select 1;" +:+ String newline ""
    ≠ "select 1;" +:+ String carriage_return (String newline "").
Proof. split_and!; [by vm_compute..|discriminate]. Qed.

(** C7 fails on the code: when a unit fails, the run ends with the
    connection still open; only the path without failure closes it.  The
    same holds for the single-file script. *)
Theorem failed_run_leaves_connection_open :
  closed <$> conn (run_migrations sample_exec (inr []) sample_fs sample_dir)
    = Some false
  ∧ exit_status (run_migrations sample_exec (inr []) sample_fs sample_dir) = 1
  ∧ closed <$> conn (run_migration sample_exec (inr []) sample_fs "002_broken.sql")
    = Some false
  ∧ closed <$> conn (run_migration sample_exec (inr []) sample_fs "001_init.sql")
    = Some true.
Proof. by vm_compute. Qed.

End EngineWitnesses.

(** ** ScriptStore *)

Import SpecNames.

Section ScriptStoreFacts.

Lemma glob_match_nil (s : string) : glob_match [] s = true ↔ s = "".
Proof. by destruct s. Qed.

Lemma glob_match_lit (c : ascii) (p : list glob_token) (s : string) :
  glob_match (Lit c :: p) s = true ↔
  ∃ r, s = String c r ∧ glob_match p r = true.
Proof.
  destruct s as [|d r]; simpl.
  - split; [done|]. by intros (? & ? & _).
  - rewrite andb_true_iff. split.
    + intros [->%Ascii.eqb_eq ?]. by exists r.
    + intros (r' & [= -> ->] & ?). by rewrite Ascii.eqb_refl.
Qed.

Lemma glob_match_any (p : list glob_token) (s : string) :
  glob_match (Any :: p) s = true ↔
  ∃ c r, s = String c r ∧ glob_match p r = true.
Proof.
  destruct s as [|d r]; simpl.
  - split; [done|]. by intros (? & ? & ? & _).
  - split; [by exists d, r|]. by intros (? & ? & [= -> ->] & ?).
Qed.

Lemma glob_match_star_unfold (p : list glob_token) (s : string) :
  glob_match (Star :: p) s =
    glob_match p s
    || match s with
       | String _ r => glob_match (Star :: p) r
       | EmptyString => false
       end.
Proof. by destruct s. Qed.

Lemma glob_match_star (p : list glob_token) (s : string) :
  glob_match (Star :: p) s = true ↔
  ∃ mid rest, s = mid +:+ rest ∧ glob_match p rest = true.
Proof.
  induction s as [|c s IH]; rewrite glob_match_star_unfold, orb_true_iff.
  - split.
    + intros [H|?]; [|done]. by exists "", "".
    + intros ([|??] & rest & Heq & H); [|done]. simpl in Heq. subst. by left.
  - rewrite IH. split.
    + intros [H|(mid & rest & -> & H)]; [by exists "", (String c s)|].
      by exists (String c mid), rest.
    + intros ([|c' mid] & rest & Heq & H); simpl in Heq.
      * subst. by left.
      * injection Heq as -> ->. right. by exists mid, rest.
Qed.

(** The names matched by [???_*.sql]. *)
Lemma glob_match_pattern (f : string) :
  glob_match pattern f = true ↔
  ∃ a b c mid, f = String a (String b (String c ("_" +:+ mid +:+ ".sql"))).
Proof.
  unfold pattern.
  do 3 setoid_rewrite glob_match_any. setoid_rewrite glob_match_lit.
  setoid_rewrite glob_match_star. do 4 setoid_rewrite glob_match_lit.
  setoid_rewrite glob_match_nil. split.
  - intros (a & r1 & -> & b & r2 & -> & c & r3 & -> & r4 & -> & mid & rest
      & -> & s1 & -> & s2 & -> & s3 & -> & s4 & -> & ->).
    by exists a, b, c, mid.
  - intros (a & b & c & mid & ->).
    eexists a, _; split; [done|]. eexists b, _; split; [done|].
    eexists c, _; split; [done|]. eexists; split; [done|].
    exists mid, ".sql"; split; [done|]. naive_solver.
Qed.

Lemma combined_name_no_match : glob_match pattern combined_name = false.
Proof. reflexivity. Qed.

Lemma elem_of_migration_files (dir : list string) (f : string) :
  f ∈ migration_files dir ↔ f ∈ dir ∧ glob_match pattern f = true.
Proof.
  unfold migration_files, glob.
  rewrite merge_sort_Permutation, !list_elem_of_filter, Is_true_true.
  split; [by intros (_ & ? & ?)|]. intros [Hin Hm]. split_and!; try done.
  intros ->. by rewrite combined_name_no_match in Hm.
Qed.

Lemma NoDup_migration_files (dir : list string) :
  NoDup dir → NoDup (migration_files dir).
Proof.
  intros H. unfold migration_files, glob. rewrite merge_sort_Permutation.
  by do 2 apply NoDup_filter.
Qed.

Lemma is_digit_value (c : ascii) :
  is_digit c = true →
  (digit_value c ≤ 9)%N ∧ N_of_ascii c = (48 + digit_value c)%N.
Proof.
  unfold is_digit, digit_value, nat_of_ascii.
  rewrite andb_true_iff, !Nat.leb_le. lia.
Qed.

Lemma digit_compare (a b : ascii) :
  is_digit a = true → is_digit b = true →
  Ascii.compare a b = (digit_value a ?= digit_value b)%N.
Proof.
  intros [_ Ha]%is_digit_value [_ Hb]%is_digit_value.
  unfold Ascii.compare. rewrite Ha, Hb.
  destruct (N.compare_spec (digit_value a) (digit_value b));
    [apply N.compare_eq_iff|apply N.compare_lt_iff|apply N.compare_gt_iff];
    lia.
Qed.

(** On zero-padded prefixes the order of the names is the order of the
    numbers. *)
Lemma le_sequence (f g : string) :
  String.le f g → has_sequence f = true → has_sequence g = true →
  (sequence f ≤ sequence g)%N.
Proof.
  destruct f as [|a [|b [|c rf]]]; try done.
  destruct g as [|a' [|b' [|c' rg]]]; try done.
  unfold has_sequence, sequence, String.le, String.leb.
  intros Hle [[Ha Hb]%andb_true_iff Hc]%andb_true_iff
    [[Ha' Hb']%andb_true_iff Hc']%andb_true_iff.
  revert Hle. cbn [String.compare String.substring].
  rewrite !digit_compare by done.
  apply is_digit_value in Ha as [Ha _], Hb as [Hb _], Hc as [Hc _].
  apply is_digit_value in Ha' as [Ha' _], Hb' as [Hb' _], Hc' as [Hc' _].
  assert (∀ s, String.substring 0 0 s = "") as Hnil by (by intros []).
  unfold int. rewrite !Hnil. cbn [int_from].
  destruct (N.compare_spec (digit_value a) (digit_value a')); [|lia|done].
  destruct (N.compare_spec (digit_value b) (digit_value b')); [|lia|done].
  destruct (N.compare_spec (digit_value c) (digit_value c')); [|lia|done].
  lia.
Qed.

Lemma StronglySorted_ordered (l : list string) :
  StronglySorted String.le l → NoDup l → StronglySorted ordered l.
Proof.
  induction 1 as [|f l Hl IH Hf]; intros Hnd; [constructor|].
  apply NoDup_cons in Hnd as [Hnin Hnd]. constructor; [by apply IH|].
  apply Forall_forall. intros g Hg. rewrite Forall_forall in Hf.
  split_and!; [by apply Hf| |by apply le_sequence, Hf].
  intros ->. done.
Qed.

(** C2, as the script behaves: ScriptStore returns exactly the entries of
    the directory whose name is three characters, an underscore, any text
    and [.sql]; the combined file is never among them; the result ascends
    strictly by name, and with it the numbers of the names that begin with
    three digits ascend. *)
Theorem script_store_contract (dir : list string) :
  NoDup dir →
  (∀ f, f ∈ migration_files dir ↔
        (f ∈ dir ∧ ∃ a b c mid,
           f = String a (String b (String c ("_" +:+ mid +:+ ".sql")))))
  ∧ (combined_name ∉ migration_files dir)
  ∧ StronglySorted ordered (migration_files dir).
Proof.
  intros Hnd. split_and!.
  - intros f. by rewrite elem_of_migration_files, glob_match_pattern.
  - rewrite elem_of_migration_files, combined_name_no_match. by intros [_ ?].
  - apply StronglySorted_ordered; [|by apply NoDup_migration_files].
    apply StronglySorted_merge_sort; apply _.
Qed.

Lemma script_store_contract_witness :
  (∀ f, f ∈ migration_files sample_dir ↔
        (f ∈ sample_dir ∧ ∃ a b c mid,
           f = String a (String b (String c ("_" +:+ mid +:+ ".sql")))))
  ∧ (combined_name ∉ migration_files sample_dir)
  ∧ StronglySorted ordered (migration_files sample_dir).
Proof.
  apply (script_store_contract sample_dir). by apply (bool_decide_unpack _).
Defined.

(** C2 as stated fails: a name without a numeric prefix is returned, a name
    of the stated form with another extension is not, and two names with the
    same prefix are both returned. *)
Lemma script_store_counterexample :
  migration_files ["abc_x.sql"] = ["abc_x.sql"]
  ∧ spec_unit_name "abc_x.sql" = false
  ∧ migration_files ["001_a.txt"] = []
  ∧ spec_unit_name "001_a.txt" = true
  ∧ migration_files ["001_b.sql"; "001_a.sql"] = ["001_a.sql"; "001_b.sql"]
  ∧ sequence "001_a.sql" = sequence "001_b.sql".
Proof. by vm_compute. Qed.

End ScriptStoreFacts.

(** * Further properties of the scripts *)

(** ** The Splitter: what is written *)

Section SplitterOutput.

Lemma split_nl_no_newline (s : string) :
  Forall (λ l, no_newline l = true) (split_nl s).
Proof.
  induction s as [|c r IH]; [by repeat constructor|]. simpl.
  destruct (Ascii.eqb c newline) eqn:Hc; [by constructor|].
  destruct (split_nl_cons r) as (l & ls & Hr). rewrite Hr in *.
  apply Forall_cons in IH as [Hl Hls]. constructor; [|done].
  simpl. by rewrite Hc, Hl.
Qed.

Lemma split_nl_line (l : string) : no_newline l = true → split_nl l = [l].
Proof.
  induction l as [|c l IH]; [done|]. simpl.
  intros [Hc Hl]%andb_true_iff. apply negb_true_iff in Hc.
  by rewrite Hc, IH.
Qed.

Lemma split_nl_join_nl_lines (ls : list string) :
  ls ≠ [] → Forall (λ l, no_newline l = true) ls →
  split_nl (join_nl ls) = ls.
Proof.
  intros Hne Hls. rewrite split_nl_join_nl by done.
  clear Hne. induction Hls as [|l ls Hl _ IH]; [done|].
  rewrite fmap_cons. simpl. by rewrite split_nl_line, IH.
Qed.

Global Instance key_le_trans : Transitive key_le.
Proof. intros a b c. unfold key_le. apply transitivity. Qed.

Global Instance key_le_total : Total key_le.
Proof. intros a b. unfold key_le. apply total, _. Qed.

Lemma StronglySorted_emitted (m : gmap string migration) :
  StronglySorted key_le (emitted m).
Proof. unfold emitted. apply StronglySorted_merge_sort; apply _. Qed.

Lemma NoDup_emitted (m : gmap string migration) : NoDup (emitted m).
Proof. eapply NoDup_fmap_1, NoDup_emitted_keys. Qed.

Lemma take_digits_filename (kv : string * migration) :
  all_digits kv.1 = true → (take_digits (filename kv)).1 = kv.1.
Proof.
  intros Hk. unfold filename.
  change ("_" +:+ name kv.2 +:+ ".sql")
    with (String "_" (name kv.2 +:+ ".sql")).
  by rewrite take_digits_app.
Qed.

Lemma StronglySorted_fmap_elem_of {A B} (R1 : relation A) (R2 : relation B)
    (f : A → B) (l : list A) :
  (∀ x y, x ∈ l → y ∈ l → R1 x y → R2 (f x) (f y)) →
  StronglySorted R1 l → StronglySorted R2 (f <$> l).
Proof.
  intros Hf Hl. induction Hl as [|x l Hl IH Hx]; [constructor|].
  rewrite fmap_cons. constructor.
  - apply IH. intros y z Hy Hz. apply Hf; by right.
  - apply Forall_fmap, Forall_forall. intros y Hy. rewrite Forall_forall in Hx.
    apply Hf; [by left|by right|by apply Hx].
Qed.

(** A key of three digits, read as a file name prefix. *)
Lemma key_has_sequence (k : string) :
  String.length k = 3 → all_digits k = true →
  has_sequence k = true ∧ sequence k = int k.
Proof.
  destruct k as [|a [|b [|c [|??]]]]; try done. intros _ H. simpl in H.
  apply andb_true_iff in H as [Ha H]. apply andb_true_iff in H as [Hb H].
  apply andb_true_iff in H as [Hc _].
  split; [simpl; by rewrite Ha, Hb, Hc|reflexivity].
Qed.

Lemma StronglySorted_distinct {A B} `{EqDecision B} (R : relation A)
    (f : A → B) (l : list A) :
  StronglySorted R l → NoDup (f <$> l) →
  StronglySorted (λ a b, R a b ∧ f a ≠ f b) l.
Proof.
  induction 1 as [|x l Hl IH Hx]; intros Hnd; [constructor|].
  rewrite fmap_cons in Hnd. apply NoDup_cons in Hnd as [Hnin Hnd].
  constructor; [by apply IH|].
  apply Forall_forall. intros y Hy. rewrite Forall_forall in Hx.
  split; [by apply Hx|]. intros Heq. apply Hnin. rewrite Heq.
  by apply list_elem_of_fmap_2.
Qed.

(** X1: the files written for one document all have different names, so no
    unit is written over another. *)
Theorem written_names_distinct (doc : string) :
  NoDup (written_files (split_migrations doc)).*1.
Proof.
  unfold written_files. rewrite <- list_fmap_compose.
  apply NoDup_fmap_2_strong; [|apply NoDup_emitted].
  intros [k1 v1] [k2 v2] H1%elem_of_emitted H2%elem_of_emitted Heq.
  assert (filename (k1, v1) = filename (k2, v2)) as Hf by exact Heq.
  assert (∀ k v, split_migrations doc !! k = Some v →
    (take_digits (filename (k, v))).1 = k) as Hkey.
  { intros k v Hkv. apply (take_digits_filename (k, v)). simpl.
    rewrite <- (split_lines_key _ _ _ Hkv). apply all_digits_fmt03. }
  assert (k1 = k2) as <-.
  { by rewrite <- (Hkey _ _ H1), <- (Hkey _ _ H2), Hf. }
  congruence.
Qed.

(** X2: when every marker number is at most 999, the units are written in
    strictly ascending order of their numbers. *)
Theorem written_in_numeric_order (doc : string) :
  (∀ line g1 g2, line ∈ split_nl doc → re_match line = Some (g1, g2) →
     (int g1 ≤ 999)%N) →
  StronglySorted (λ u v : N * string * string, (u.1.1 < v.1.1)%N)
    (units (split_migrations doc)).
Proof.
  intros Hsmall. unfold units.
  apply (StronglySorted_fmap_elem_of (λ a b, key_le a b ∧ a.1 ≠ b.1));
    [|apply StronglySorted_distinct;
      [apply StronglySorted_emitted|apply NoDup_emitted_keys]].
  assert (∀ k v, split_migrations doc !! k = Some v →
    String.length k = 3 ∧ all_digits k = true ∧ fmt03 (int k) = k) as Hkey.
  { intros k v Hkv. pose proof (split_lines_key _ _ _ Hkv) as Hk.
    apply split_lines_unit_in in Hkv
      as (pre & m & block & post & g1 & g2 & Hl & Hm & _ & _ & -> & _).
    split_and!; [|apply all_digits_fmt03|done].
    rewrite length_fmt03.
    assert (String.length (pretty (int g1)) ≤ 3)%nat; [|lia].
    apply length_pretty_small, (Hsmall m g1 g2); [|done].
    rewrite Hl. apply elem_of_app. right. by left. }
  intros [k1 v1] [k2 v2] H1%elem_of_emitted H2%elem_of_emitted [Hle Hne].
  unfold key_le in Hle. simpl in *.
  destruct (Hkey _ _ H1) as (Hl1 & Hd1 & Hf1).
  destruct (Hkey _ _ H2) as (Hl2 & Hd2 & Hf2).
  destruct (key_has_sequence _ Hl1 Hd1) as [Hs1 Hq1].
  destruct (key_has_sequence _ Hl2 Hd2) as [Hs2 Hq2].
  pose proof (le_sequence _ _ Hle Hs1 Hs2) as Hnum.
  rewrite Hq1, Hq2 in Hnum.
  assert (int k1 ≠ int k2); [|lia].
  intros Heq. apply Hne. by rewrite <- Hf1, <- Hf2, Heq.
Qed.

End SplitterOutput.

(** ** The Splitter: the document and its blocks *)

Section SplitterBlocks.

Lemma cut_spec (lines : list string) :
  lines = (cut lines).1 ++ concat (cut lines).2
  ∧ plain (cut lines).1
  ∧ Forall block_ok (cut lines).2.
Proof.
  induction lines as [|l rest (IHl & IHp & IHb)]; [by repeat constructor|].
  simpl. destruct (cut rest) as [pre blocks]. simpl in *.
  destruct (is_marker l) eqn:Hl; simpl.
  - split_and!; [by rewrite <- IHl|constructor|].
    constructor; [|done]. apply is_marker_true in Hl as (g1 & g2 & Hl).
    by exists l, pre, g1, g2.
  - split_and!; [by rewrite <- IHl|by constructor|done].
Qed.

Lemma block_unit_own (b : list string) :
  block_ok b → Forall (λ l, no_newline l = true) b →
  own_marker_first (block_unit b) ∧ (block_unit b).2 = join_nl b.
Proof.
  intros (m & block & g1 & g2 & -> & Hm & Hb) Hnl.
  unfold block_unit. rewrite Hm. split; [|done].
  exists m, block, g1. cbn [fst snd]. by rewrite split_nl_join_nl_lines.
Qed.

Lemma Forall_concat_inv {A} (P : A → Prop) (ls : list (list A)) :
  Forall P (concat ls) → Forall (Forall P) ls.
Proof.
  induction ls as [|l ls IH]; simpl; [constructor|].
  intros [??]%Forall_app. constructor; auto.
Qed.

Lemma cut_blocks (doc : string) :
  Forall (λ b, block_ok b ∧ Forall (λ l, no_newline l = true) b)
    (cut (split_nl doc)).2.
Proof.
  destruct (cut_spec (split_nl doc)) as (Hl & _ & Hb).
  pose proof (split_nl_no_newline doc) as Hnl. rewrite Hl in Hnl.
  apply Forall_app in Hnl as [_ Hnl]. apply Forall_concat_inv in Hnl.
  clear Hl. revert Hnl.
  induction Hb as [|b bs Hb _ IH]; intros Hnl; [constructor|].
  apply Forall_cons in Hnl as [??]. constructor; [by split|by apply IH].
Qed.

Lemma concat_split_join (bs : list (list string)) :
  Forall (λ b, block_ok b ∧ Forall (λ l, no_newline l = true) b) bs →
  concat (split_nl <$> (join_nl <$> bs)) = concat bs.
Proof.
  induction 1 as [|b bs [(m & block & ? & ? & -> & _) Hnl] _ IH]; [done|].
  rewrite !fmap_cons. cbn [concat]. rewrite IH. f_equal.
  by rewrite split_nl_join_nl_lines.
Qed.

Lemma omap_Some_all {A B} (f : A → option B) (g : A → B) (l : list A) :
  (∀ x, x ∈ l → f x = Some (g x)) → omap f l = g <$> l.
Proof.
  induction l as [|x l IH]; intros H; [done|].
  simpl. rewrite H by (by left). simpl. f_equal.
  apply IH. intros y Hy. apply H. by right.
Qed.

Lemma split_migrations_cut (doc : string) :
  split_migrations doc
  = foldl store ∅ (block_unit <$> (cut (split_nl doc)).2).
Proof.
  destruct (cut_spec (split_nl doc)) as (Hl & Hp & Hb).
  pose proof (cut_blocks doc) as Hbs.
  unfold split_migrations. rewrite Hl at 1.
  rewrite split_lines_preamble by done.
  rewrite <- (concat_split_join _ Hbs).
  assert (join_nl <$> (cut (split_nl doc)).2
    = (block_unit <$> (cut (split_nl doc)).2).*2) as ->.
  { rewrite <- list_fmap_compose. apply Forall_fmap_ext_1.
    eapply Forall_impl; [exact Hbs|]. intros b [Hok Hnl]. simpl.
    by destruct (block_unit_own b Hok Hnl) as [_ ->]. }
  unfold split_lines, scan. rewrite save_foldl_step_units; [done|].
  apply Forall_fmap. eapply Forall_impl; [exact Hbs|].
  intros b [Hok Hnl]. by apply block_unit_own.
Qed.

(** X4: the dictionary the loop builds is the one obtained by cutting the
    document at its marker lines and storing the blocks in their order, a
    later block replacing an earlier one that has the same number; the lines
    in front of the first marker are in no block. *)
Theorem split_is_store_of_blocks (doc : string) :
  split_nl doc = (cut (split_nl doc)).1 ++ concat (cut (split_nl doc)).2
  ∧ plain (cut (split_nl doc)).1
  ∧ Forall block_ok (cut (split_nl doc)).2
  ∧ split_migrations doc
    = foldl store ∅ (block_unit <$> (cut (split_nl doc)).2).
Proof.
  destruct (cut_spec (split_nl doc)) as (Hl & Hp & Hb).
  split_and!; try done. apply split_migrations_cut.
Qed.

(** X3: every file written holds one unit and describes itself: splitting
    its contents alone gives back the same key, name and contents. *)
Theorem written_unit_splits_to_itself (doc k : string) (v : migration) :
  split_migrations doc !! k = Some v →
  split_migrations (content v) = {[k := v]}.
Proof.
  intros (pre & m & block & post & g1 & g2 & Hl & Hm & Hb & _ & -> & ->)
    %split_lines_unit_in.
  pose proof (split_nl_no_newline doc) as Hnl. rewrite Hl in Hnl.
  apply Forall_app in Hnl as [_ Hnl].
  rewrite (app_comm_cons block post m) in Hnl.
  apply Forall_app in Hnl as [Hnl _].
  unfold split_migrations. cbn [content].
  rewrite split_nl_join_nl_lines by done.
  unfold split_lines, scan. rewrite (foldl_step_block _ _ _ _ _ Hm Hb).
  unfold save, initial. cbn [current migrations buffer].
  by rewrite insert_empty.
Qed.

(** X5: when no number occurs on two marker lines, nothing is lost: the
    contents stored for the blocks, looked up in the order of the document
    and put after the lines in front of the first marker, are the document
    again. *)
Theorem split_is_lossless (doc : string) :
  NoDup (block_unit <$> (cut (split_nl doc)).2).*1.*1 →
  join_nl ((cut (split_nl doc)).1
           ++ concat (split_nl <$>
                omap (λ b, content <$>
                        split_migrations doc !! fmt03 (block_unit b).1.1)
                  (cut (split_nl doc)).2))
  = doc.
Proof.
  intros Hnd.
  destruct (cut_spec (split_nl doc)) as (Hl & _ & _).
  pose proof (cut_blocks doc) as Hbs.
  assert (omap (λ b, content <$>
                  split_migrations doc !! fmt03 (block_unit b).1.1)
            (cut (split_nl doc)).2
          = join_nl <$> (cut (split_nl doc)).2) as ->.
  { rewrite split_migrations_cut.
    assert (∀ b, b ∈ (cut (split_nl doc)).2 →
      content <$> foldl store ∅ (block_unit <$> (cut (split_nl doc)).2)
                    !! fmt03 (block_unit b).1.1 = Some (join_nl b)) as Hlook.
    { intros b Hb. rewrite Forall_forall in Hbs.
      destruct (Hbs b Hb) as [Hok Hnl].
      destruct (block_unit_own b Hok Hnl) as [_ <-].
      rewrite (proj2 (lookup_foldl_store _ (fmt03 (block_unit b).1.1)
        {| name := (block_unit b).1.2; content := (block_unit b).2 |} Hnd));
        [done|].
      exists (block_unit b). split; [by apply list_elem_of_fmap_2|done]. }
    by apply omap_Some_all. }
  rewrite (concat_split_join _ Hbs), <- Hl. apply join_nl_split_nl.
Qed.

End SplitterBlocks.

Section SplitterOutputWitnesses.

Lemma written_in_numeric_order_witness :
  StronglySorted (λ u v : N * string * string, (u.1.1 < v.1.1)%N)
    (units (split_migrations (combine two_units))).
Proof.
  apply (written_in_numeric_order (combine two_units)).
  intros line g1 g2 Hin.
  assert (split_nl (combine two_units)
    = ["-- Migration: 001_init.sql"; "create table t (id int);"; "";
       "-- Migration: 12_add_index.sql"; "create index i on t (id);"]) as Hl
    by reflexivity.
  rewrite Hl in Hin.
  repeat (apply elem_of_cons in Hin as [->|Hin]);
    try (by apply elem_of_nil in Hin);
    try discriminate; intros [= <- <-]; vm_compute; discriminate.
Defined.

Lemma written_unit_splits_to_itself_witness :
  split_migrations
    (join_nl ["-- Migration: 7_init.sql"; "create table t (id int);"])
  = {[ "007" :=
         {| name := "init";
            content := join_nl ["-- Migration: 7_init.sql";
                                "create table t (id int);"] |} ]}.
Proof.
  apply (written_unit_splits_to_itself doc_with_preamble "007"
    {| name := "init";
       content := join_nl ["-- Migration: 7_init.sql";
                           "create table t (id int);"] |}).
  vm_compute. reflexivity.
Defined.

Lemma split_is_lossless_witness :
  join_nl ((cut (split_nl (combine two_units))).1
           ++ concat (split_nl <$>
                omap (λ b, content <$>
                        split_migrations (combine two_units)
                          !! fmt03 (block_unit b).1.1)
                  (cut (split_nl (combine two_units))).2))
  = combine two_units.
Proof.
  apply (split_is_lossless (combine two_units)).
  apply (bool_decide_unpack _). vm_compute. reflexivity.
Defined.

End SplitterOutputWitnesses.

(** ** ScriptStore: the order of the listing *)

Section ScriptStoreOrder.

Lemma StronglySorted_migration_files (dir : list string) :
  StronglySorted String.le (migration_files dir).
Proof. unfold migration_files. apply StronglySorted_merge_sort; apply _. Qed.

Lemma migration_files_Permutation (dir dir' : list string) :
  dir ≡ₚ dir' → migration_files dir = migration_files dir'.
Proof.
  intros Hp. apply (StronglySorted_unique String.le);
    try apply StronglySorted_migration_files.
  unfold migration_files, glob. rewrite !merge_sort_Permutation.
  by rewrite Hp.
Qed.

Lemma filter_all {A} (P : A → Prop) `{∀ x, Decision (P x)} (l : list A) :
  Forall P l → filter P l = l.
Proof.
  induction 1 as [|x l Hx _ IH]; [done|].
  by rewrite filter_cons_True, IH.
Qed.

(** X7: what ScriptStore returns is a fixed point: taken as a directory
    listing, it is returned as it is. *)
Theorem migration_files_idempotent (dir : list string) :
  migration_files (migration_files dir) = migration_files dir.
Proof.
  apply (StronglySorted_unique String.le);
    try apply StronglySorted_migration_files.
  unfold migration_files at 1. rewrite merge_sort_Permutation.
  unfold glob.
  rewrite (filter_all (λ f, Is_true (glob_match pattern f))).
  - rewrite filter_all; [done|].
    apply Forall_forall. intros f [Hin Hm]%elem_of_migration_files.
    intros ->. by rewrite combined_name_no_match in Hm.
  - apply Forall_forall. intros f [Hin Hm]%elem_of_migration_files.
    by apply Is_true_true.
Qed.

End ScriptStoreOrder.

Section EngineOrder.

Context {DB Cause : Type} (exec_sql : DB → string → Cause + DB).

(** X6: the order in which the directory lists its entries does not
    matter: the files found, and with them the whole run, are the same for
    every listing of the same entries. *)
Theorem listing_order_irrelevant (server : Cause + DB)
    (fs : gmap string string) (dir dir' : list string) :
  dir ≡ₚ dir' →
  migration_files dir = migration_files dir'
  ∧ run_migrations exec_sql server fs dir
    = run_migrations exec_sql server fs dir'.
Proof.
  intros Hp%migration_files_Permutation. split; [done|].
  unfold run_migrations. by rewrite Hp.
Qed.

End EngineOrder.

Lemma listing_order_irrelevant_witness :
  migration_files sample_dir
  = migration_files ["notes.txt"; "002_broken.sql"; "001_init.sql"; "003_more.sql"]
  ∧ run_migrations sample_exec (inr []) sample_fs sample_dir
    = run_migrations sample_exec (inr []) sample_fs
        ["notes.txt"; "002_broken.sql"; "001_init.sql"; "003_more.sql"].
Proof.
  apply (listing_order_irrelevant sample_exec (inr []) sample_fs sample_dir
    ["notes.txt"; "002_broken.sql"; "001_init.sql"; "003_more.sql"]).
  apply (bool_decide_unpack _). vm_compute. reflexivity.
Defined.

(** ** The Engine: the other ways a run ends *)

Section EngineRuns.

Context {DB Cause : Type} (exec_sql : DB → string → Cause + DB).

Lemma length_ok_from (i : nat) (files : list string) :
  length (ok_from (Cause := Cause) i files) = length files.
Proof. revert i. induction files as [|f files IH]; intros i; simpl; auto. Qed.

Lemma ok_from_names (i : nat) (files : list string) :
  (ok_from (Cause := Cause) i files).*1.*2 = files.
Proof.
  revert i. induction files as [|f files IH]; intros i; [done|].
  simpl. by rewrite IH.
Qed.

Lemma execute_live_inv (db : DB) (sql : string) (c : connection DB) :
  execute exec_sql (live db) sql = inr c →
  ∃ db', exec_sql db sql = inr db' ∧ c = live db'.
Proof.
  unfold execute. simpl. destruct (exec_sql db sql) as [e|db']; [done|].
  intros [= <-]. by exists db'.
Qed.

Lemma execute_each_exit_0 (fs : gmap string string) (files : list string)
    (db : DB) (i : nat) (log : list (nat * string * status Cause))
    (sqls : list string) :
  exit_status (execute_each exec_sql fs (live db) i files log sqls) = 0 →
  ∃ texts db', Forall2 (λ f sql, read_file fs f = Some sql) files texts
               ∧ apply_all exec_sql db texts = Some db'.
Proof.
  revert db i log sqls. induction files as [|f rest IH]; intros db i log sqls.
  - intros _. exists [], db. by split; [constructor|].
  - simpl. destruct (read_file fs f) as [sql|] eqn:Hf; [|done].
    destruct (execute exec_sql (live db) sql) as [e|c] eqn:He; [done|].
    apply execute_live_inv in He as (db1 & He & ->).
    intros (texts & db' & Hr & Ha)%IH.
    exists (sql :: texts), db'. split; [by constructor|].
    simpl. by rewrite He.
Qed.

(** The shape of what the loop leaves behind. *)
Lemma execute_each_shape (fs : gmap string string) (files : list string)
    (db : DB) (i : nat) (log : list (nat * string * status Cause))
    (sqls : list string) :
  ∃ ran tail db',
    report (execute_each exec_sql fs (live db) i files log sqls)
      = log ++ ok_from i ran ++ tail
    ∧ (tail = [] ∧ ran `prefix_of` files
       ∨ ∃ f e, tail = [(i + length ran, f, FAILED e)]
                ∧ (ran ++ [f]) `prefix_of` files)
    ∧ length (executed (execute_each exec_sql fs (live db) i files log sqls))
      = length sqls + length ran + length tail
    ∧ (conn (execute_each exec_sql fs (live db) i files log sqls)
         = Some (live db')
       ∨ conn (execute_each exec_sql fs (live db) i files log sqls)
         = Some (close (live db'))).
Proof.
  revert db i log sqls. induction files as [|f rest IH]; intros db i log sqls.
  - exists [], [], db. simpl. rewrite app_nil_r.
    split_and!; [done|by left|lia|by right].
  - simpl. destruct (read_file fs f) as [sql|] eqn:Hf.
    + destruct (execute exec_sql (live db) sql) as [e|c] eqn:He.
      * exists [], [(i, f, FAILED e)], db. simpl.
        rewrite Nat.add_0_r, length_app. simpl.
        split_and!; [done| |lia|by left].
        right. exists f, e. split; [done|]. by exists rest.
      * apply execute_live_inv in He as (db1 & He & ->).
        destruct (IH db1 (S i) (log ++ [(i, f, OK)]) (sqls ++ [sql]))
          as (ran & tail & db' & Hrep & Htail & Hlen & Hconn).
        exists (f :: ran), tail, db'. rewrite Hrep, Hlen, length_app. simpl.
        split_and!; [by rewrite <- app_assoc| |lia|done].
        destruct Htail as [[-> Hp]|(f' & e & -> & Hp)].
        -- left. split; [done|]. by apply prefix_cons.
        -- right. exists f', e. rewrite Nat.add_succ_r. split; [done|].
           by apply (prefix_cons f) in Hp.
    + exists [], [], db. simpl. rewrite app_nil_r.
      split_and!; [done| |lia|by left].
      left. split; [done|]. apply prefix_nil.
Qed.

(** X8: when every file can be read and every script succeeds, the run
    reports all files as OK in order, has executed exactly their texts,
    leaves the database in the state they lead to, closes the connection and
    ends with status 0. *)
Theorem engine_full_success (fs : gmap string string) (db0 db' : DB)
    (files texts : list string) :
  Forall2 (λ f sql, read_file fs f = Some sql) files texts →
  apply_all exec_sql db0 texts = Some db' →
  apply_files exec_sql (inr db0) fs files
  = {| exit_status := 0;
       report := ok_from 1 files;
       executed := texts;
       conn := Some {| autocommit := true; committed := db';
                       working := db'; closed := true |} |}.
Proof.
  intros Hr Ha. unfold apply_files.
  change (set_autocommit (connect db0)) with (live db0).
  rewrite <- (app_nil_r files).
  rewrite (execute_each_prefix _ _ _ _ _ _ _ _ _ _ Hr Ha).
  by rewrite app_nil_r.
Qed.

(** X9: a run ends with status 0 only when the connection was made, every
    file could be read and every script succeeded; no other run does. *)
Theorem engine_exit_0_iff (server : Cause + DB) (fs : gmap string string)
    (files : list string) :
  exit_status (apply_files exec_sql server fs files) = 0 ↔
  ∃ db texts db',
    server = inr db ∧ Forall2 (λ f sql, read_file fs f = Some sql) files texts
    ∧ apply_all exec_sql db texts = Some db'.
Proof.
  split.
  - unfold apply_files. destruct server as [e|db]; [done|].
    intros (texts & db' & ? & ?)%execute_each_exit_0. by exists db, texts, db'.
  - intros (db & texts & db' & -> & Hr & Ha). unfold apply_files.
    change (set_autocommit (connect db)) with (live db).
    rewrite <- (app_nil_r files).
    by rewrite (execute_each_prefix _ _ _ _ _ _ _ _ _ _ Hr Ha).
Qed.

(** X10: when a file cannot be read (it is gone, or it is not UTF-8), the
    run stops there with status 1: the files in front of it are reported
    OK and stay committed, nothing is printed or executed for the unreadable
    file or any later one, and the connection is left open. *)
Theorem engine_unreadable_file (fs : gmap string string) (db0 dbk : DB)
    (pre post : list string) (f : string) (texts : list string) :
  Forall2 (λ f sql, read_file fs f = Some sql) pre texts →
  apply_all exec_sql db0 texts = Some dbk →
  read_file fs f = None →
  apply_files exec_sql (inr db0) fs (pre ++ f :: post)
  = {| exit_status := 1;
       report := ok_from 1 pre;
       executed := texts;
       conn := Some {| autocommit := true; committed := dbk;
                       working := dbk; closed := false |} |}.
Proof.
  intros Hr Ha Hf. unfold apply_files.
  change (set_autocommit (connect db0)) with (live db0).
  rewrite (execute_each_prefix _ _ _ _ _ _ _ _ _ _ Hr Ha).
  cbn [execute_each]. by rewrite Hf.
Qed.

(** X11: whatever happens, the lines printed are numbered 1, 2, 3, ... and
    name a front part of the files in their order; every line but possibly
    the last says OK, and a FAILED line ends the report; one text was passed
    to the database for each line; and the session holds nothing that is
    not committed. *)
Theorem engine_report_shape (server : Cause + DB) (fs : gmap string string)
    (files : list string) :
  ∃ ran tail,
    report (apply_files exec_sql server fs files) = ok_from 1 ran ++ tail
    ∧ (tail = [] ∧ ran `prefix_of` files
       ∨ ∃ f e, tail = [(S (length ran), f, FAILED e)]
                ∧ (ran ++ [f]) `prefix_of` files)
    ∧ length (executed (apply_files exec_sql server fs files))
      = length (report (apply_files exec_sql server fs files))
    ∧ ∀ c, conn (apply_files exec_sql server fs files) = Some c →
           autocommit c = true ∧ committed c = working c.
Proof.
  unfold apply_files. destruct server as [e|db].
  - exists [], []. simpl. split_and!; [done| |done|done].
    left. split; [done|]. apply prefix_nil.
  - change (set_autocommit (connect db)) with (live db).
    destruct (execute_each_shape fs files db 1 [] [])
      as (ran & tail & db' & Hrep & Htail & Hlen & Hconn).
    exists ran, tail. simpl in Hrep. rewrite Hrep, Hlen.
    rewrite length_app, length_ok_from. split_and!; [done|done|simpl; lia|].
    intros c Hc. destruct Hconn as [Hconn|Hconn]; rewrite Hconn in Hc;
      by injection Hc as <-.
Qed.

(** X12: only files of the directory that match the pattern are ever
    reported, and the combined file never is, even when the directory holds
    it. *)
Theorem engine_runs_only_matching_files (server : Cause + DB)
    (fs : gmap string string) (dir : list string) (line : nat * string * status Cause) :
  line ∈ report (run_migrations exec_sql server fs dir) →
  line.1.2 ∈ dir ∧ glob_match pattern line.1.2 = true
  ∧ line.1.2 ≠ combined_name.
Proof.
  intros Hin.
  assert (line.1.2 ∈ migration_files dir) as Hf.
  { unfold run_migrations in Hin.
    destruct (migration_files dir) as [|f0 files] eqn:Hfiles;
      [by apply elem_of_nil in Hin|].
    unfold apply_files in Hin. destruct server as [e|db];
      [by apply elem_of_nil in Hin|].
    change (set_autocommit (connect db)) with (live db) in Hin.
    destruct (execute_each_shape fs (f0 :: files) db 1 [] [])
      as (ran & tail & db' & Hrep & Htail & _).
    rewrite app_nil_l in Hrep. rewrite Hrep in Hin.
    assert (line.1.2 ∈ (ok_from (Cause := Cause) 1 ran ++ tail).*1.*2) as Hn
      by (by do 2 apply list_elem_of_fmap_2).
    rewrite !fmap_app, ok_from_names in Hn.
    destruct Htail as [[-> Hp]|(f & e & -> & Hp)]; simpl in Hn.
    - rewrite app_nil_r in Hn. destruct Hp as [k ->].
      apply elem_of_app. by left.
    - destruct Hp as [k ->]. apply elem_of_app. by left. }
  apply elem_of_migration_files in Hf as [? Hm]. split_and!; try done.
  intros Heq. by rewrite Heq, combined_name_no_match in Hm.
Qed.

(** X13: the single-file script behaves on a readable file as the Engine
    does on the list of that one file; on a file that cannot be read it ends
    with status 1 before any connection is made. *)
Theorem run_migration_is_one_file_run (server : Cause + DB)
    (fs : gmap string string) (f : string) :
  (is_Some (read_file fs f) →
   run_migration exec_sql server fs f = apply_files exec_sql server fs [f])
  ∧ (read_file fs f = None →
     run_migration exec_sql server fs f
     = {| exit_status := 1; report := []; executed := []; conn := None |}).
Proof.
  unfold run_migration, apply_files. split.
  - intros [sql Hf]. rewrite Hf. destruct server as [e|db]; [done|].
    cbn [execute_each]. rewrite Hf.
    by destruct (execute exec_sql (set_autocommit (connect db)) sql).
  - by intros ->.
Qed.

End EngineRuns.

Section EngineRunsWitnesses.

Lemma engine_full_success_witness :
  apply_files sample_exec (inr []) sample_fs ["001_init.sql"; "003_more.sql"]
  = {| exit_status := 0;
       report := ok_from 1 ["001_init.sql"; "003_more.sql"];
       executed := ["create table t (id int);"; "alter table t add c int;"];
       conn := Some {| autocommit := true;
                       committed := ["create table t (id int);";
                                     "alter table t add c int;"];
                       working := ["create table t (id int);";
                                   "alter table t add c int;"];
                       closed := true |} |}.
Proof.
  apply (engine_full_success sample_exec sample_fs []
    ["create table t (id int);"; "alter table t add c int;"]
    ["001_init.sql"; "003_more.sql"]
    ["create table t (id int);"; "alter table t add c int;"]).
  - by repeat constructor.
  - reflexivity.
Defined.

Lemma engine_unreadable_file_witness :
  apply_files sample_exec (inr []) sample_fs
    (["001_init.sql"] ++ "004_gone.sql" :: ["003_more.sql"])
  = {| exit_status := 1;
       report := ok_from 1 ["001_init.sql"];
       executed := ["create table t (id int);"];
       conn := Some {| autocommit := true;
                       committed := ["create table t (id int);"];
                       working := ["create table t (id int);"];
                       closed := false |} |}.
Proof.
  apply (engine_unreadable_file sample_exec sample_fs []
    ["create table t (id int);"] ["001_init.sql"] ["003_more.sql"]
    "004_gone.sql" ["create table t (id int);"]).
  - by repeat constructor.
  - reflexivity.
  - reflexivity.
Defined.

Lemma engine_runs_only_matching_files_witness :
  "002_broken.sql" ∈ sample_dir
  ∧ glob_match pattern "002_broken.sql" = true
  ∧ "002_broken.sql" ≠ combined_name.
Proof.
  apply (engine_runs_only_matching_files sample_exec (inr []) sample_fs
    sample_dir (2, "002_broken.sql", FAILED "syntax error")).
  vm_compute. right. left.
Defined.

Lemma run_migration_is_one_file_run_witness :
  run_migration sample_exec (inr []) sample_fs "001_init.sql"
  = apply_files sample_exec (inr []) sample_fs ["001_init.sql"].
Proof.
  apply (proj1 (run_migration_is_one_file_run sample_exec (inr []) sample_fs
    "001_init.sql")).
  vm_compute. by eexists.
Defined.

End EngineRunsWitnesses.

(** ** Reading: what text mode keeps *)

Section ReadingMore.

Lemma byte_high_not_cr (c : ascii) :
  (128 ≤ byte c)%N → Ascii.eqb c carriage_return = false.
Proof.
  intros H. destruct (Ascii.eqb_spec c carriage_return) as [->|]; [|done].
  vm_compute in H. by destruct H.
Qed.

Lemma universal_newlines_high (c : ascii) (s : string) :
  (128 ≤ byte c)%N →
  universal_newlines (String c s) = String c (universal_newlines s).
Proof. intros H. by rewrite universal_newlines_cons, byte_high_not_cr. Qed.

Lemma between_high (lo hi : N) (c : ascii) :
  (128 ≤ lo)%N → between lo hi c = true → (128 ≤ byte c)%N.
Proof.
  unfold between. intros Hlo [H _]%andb_true_iff.
  apply N.leb_le in H. lia.
Qed.

Lemma continuation_high (c : ascii) :
  continuation c = true → (128 ≤ byte c)%N.
Proof. by apply between_high. Qed.

Lemma lead3_high (b0 b1 : ascii) : lead3 b0 b1 = true → (128 ≤ byte b1)%N.
Proof.
  unfold lead3. rewrite !orb_true_iff, !andb_true_iff.
  intros [[[[_ H]|[_ H]]|[_ H]]|[_ H]];
    (by apply continuation_high) || (eapply between_high; [|exact H]; lia).
Qed.

Lemma lead4_high (b0 b1 : ascii) : lead4 b0 b1 = true → (128 ≤ byte b1)%N.
Proof.
  unfold lead4. rewrite !orb_true_iff, !andb_true_iff.
  intros [[[_ H]|[_ H]]|[_ H]];
    (by apply continuation_high) || (eapply between_high; [|exact H]; lia).
Qed.

Lemma utf8_valid_low (c : ascii) (s : string) :
  (byte c <? 128)%N = true → utf8_valid (String c s) = utf8_valid s.
Proof. intros H. cbn [utf8_valid]. by rewrite H. Qed.

Lemma utf8_valid_universal_newlines_lt (n : nat) (s : string) :
  (String.length s < n)%nat → utf8_valid s = true →
  utf8_valid (universal_newlines s) = true.
Proof.
  revert s. induction n as [|n IH]; intros s Hn Hv; [lia|].
  destruct s as [|b0 r0]; [done|]. simpl in Hn.
  destruct (byte b0 <? 128)%N eqn:Hb0.
  - rewrite utf8_valid_low in Hv by done.
    rewrite universal_newlines_cons.
    destruct (Ascii.eqb b0 carriage_return) eqn:Hc.
    + rewrite utf8_valid_low by done.
      destruct r0 as [|d r']; [done|].
      destruct (Ascii.eqb_spec d newline) as [->|_].
      * rewrite utf8_valid_low in Hv by done. apply IH; [simpl in Hn; lia|done].
      * apply IH; [lia|done].
    + rewrite utf8_valid_low by done. apply IH; [lia|done].
  - assert (128 ≤ byte b0)%N as Hh0 by (apply N.ltb_ge in Hb0; lia).
    rewrite universal_newlines_high by done.
    cbn [utf8_valid] in Hv. rewrite Hb0 in Hv.
    destruct r0 as [|b1 r1]; [done|]. simpl in Hn.
    destruct (lead2 b0) eqn:H2.
    { apply andb_true_iff in Hv as [Hc1 Hv].
      rewrite universal_newlines_high by (by apply continuation_high).
      cbn [utf8_valid]. rewrite Hb0, H2, Hc1. apply IH; [lia|done]. }
    destruct r1 as [|b2 r2]; [done|]. simpl in Hn.
    destruct (lead3 b0 b1) eqn:H3.
    { apply andb_true_iff in Hv as [Hc2 Hv].
      rewrite universal_newlines_high by (by eapply lead3_high).
      rewrite universal_newlines_high by (by apply continuation_high).
      cbn [utf8_valid]. rewrite Hb0, H2, H3, Hc2. apply IH; [lia|done]. }
    destruct r2 as [|b3 r3]; [done|]. simpl in Hn.
    apply andb_true_iff in Hv as [Hv Hv3].
    apply andb_true_iff in Hv as [Hv Hc3].
    apply andb_true_iff in Hv as [H4 Hc2].
    rewrite universal_newlines_high by (by eapply lead4_high).
    rewrite universal_newlines_high by (by apply continuation_high).
    rewrite universal_newlines_high by (by apply continuation_high).
    cbn [utf8_valid]. rewrite Hb0, H2, H3, H4, Hc2, Hc3. apply IH; [lia|done].
Qed.

Lemma utf8_valid_universal_newlines (s : string) :
  utf8_valid s = true → utf8_valid (universal_newlines s) = true.
Proof. apply (utf8_valid_universal_newlines_lt (S (String.length s))). lia. Qed.

Lemma utf8_valid_ascii (s : string) : all_ascii s = true → utf8_valid s = true.
Proof.
  induction s as [|c s IH]; [done|]. simpl.
  intros [Hc Hs]%andb_true_iff. rewrite Hc. by apply IH.
Qed.

(** X14: reading is a projection: a text that was read from a file and is
    stored as a file again is read back unchanged, and the text read is
    valid UTF-8 without any CR. *)
Theorem read_text_idempotent (bytes text : string) :
  read_text bytes = Some text →
  read_text text = Some text ∧ utf8_valid text = true ∧ has_cr text = false.
Proof.
  unfold read_text. destruct (utf8_valid bytes) eqn:Hv; [|done].
  intros [= <-].
  rewrite utf8_valid_universal_newlines by done.
  rewrite universal_newlines_id by apply universal_newlines_no_cr.
  split_and!; [done..|apply universal_newlines_no_cr].
Qed.

(** X15: a file that holds only ASCII bytes can always be read, and is read
    as it is when it holds no CR. *)
Theorem read_text_ascii (bytes : string) :
  all_ascii bytes = true →
  read_text bytes = Some (universal_newlines bytes)
  ∧ (has_cr bytes = false → read_text bytes = Some bytes).
Proof.
  intros Ha. unfold read_text. rewrite utf8_valid_ascii by done.
  split; [done|]. intros Hcr. by rewrite universal_newlines_id.
Qed.

End ReadingMore.

Section ReadingMoreWitnesses.

Lemma read_text_idempotent_witness :
  read_text ("select 1;" +:+ String newline "")
    = Some ("select 1;" +:+ String newline "")
  ∧ utf8_valid ("select 1;" +:+ String newline "") = true
  ∧ has_cr ("select 1;" +:+ String newline "") = false.
Proof.
  apply (read_text_idempotent
    ("select 1;" +:+ String carriage_return (String newline ""))).
  reflexivity.
Defined.

Lemma read_text_ascii_witness :
  read_text "select 1;" = Some (universal_newlines "select 1;")
  ∧ (has_cr "select 1;" = false → read_text "select 1;" = Some "select 1;").
Proof. apply (read_text_ascii "select 1;"). reflexivity. Defined.

End ReadingMoreWitnesses.

(** ** The scripts around the Engine *)

Section CliFacts.

Context {DB Cause : Type} (exec_sql : DB → string → Cause + DB).
Context (netloc : string → string) (connect_to : Cli.db_config → Cause + DB).

Lemma truthy_Some (v : option string) (p : string) :
  Cli.truthy v = Some p ↔ v = Some p ∧ p ≠ "".
Proof.
  destruct v as [[|c r]|]; simpl; split; try done;
    try (by intros [[=] _]); try (by intros [[= <-] ?]).
  by intros [= <-].
Qed.

Lemma run_migrations_conn (server : Cause + DB) (fs : gmap string string)
    (dir : list string) (c : connection DB) :
  conn (run_migrations exec_sql server fs dir) = Some c →
  (∃ db, server = inr db) ∧ migration_files dir ≠ [].
Proof.
  unfold run_migrations. destruct (migration_files dir); [done|].
  unfold apply_files. destruct server as [e|db]; [done|]. by eauto.
Qed.

Lemma run_migration_conn (server : Cause + DB) (fs : gmap string string)
    (f : string) (c : connection DB) :
  conn (run_migration exec_sql server fs f) = Some c →
  (∃ db, server = inr db) ∧ is_Some (read_file fs f).
Proof.
  unfold run_migration. destruct (read_file fs f); [|done].
  destruct server as [e|db]; [done|]. by eauto.
Qed.

(** X16: [run-migrations.py] opens a connection only with a password that
    is not empty: the one of the environment when that is set and not
    empty, and only otherwise the one typed at the prompt; the URL was set,
    the host is its network location, the other parameters are the fixed
    ones, and the directory held at least one migration file. *)
Theorem run_migrations_connects_with_password (env : Cli.environment)
    (typed : string) (fs : gmap string string) (dir : list string)
    (c : connection DB) :
  conn (Cli.outcome
          (Cli.run_migrations exec_sql netloc connect_to env typed fs dir))
    = Some c →
  ∃ url pw,
    Cli.VITE_SUPABASE_URL env = Some url ∧ url ≠ "" ∧ pw ≠ ""
    ∧ Cli.config
        (Cli.run_migrations exec_sql netloc connect_to env typed fs dir)
      = Some {| Cli.host := netloc url; Cli.user := "postgres";
                Cli.password := pw; Cli.database := "postgres";
                Cli.port := "5432"; Cli.sslmode := "require";
                Cli.connect_timeout := 30 |}
    ∧ (Cli.SUPABASE_DB_PASSWORD env = Some pw
       ∧ Cli.asked
           (Cli.run_migrations exec_sql netloc connect_to env typed fs dir)
         = false
       ∨ Cli.truthy (Cli.SUPABASE_DB_PASSWORD env) = None ∧ pw = typed
         ∧ Cli.asked
             (Cli.run_migrations exec_sql netloc connect_to env typed fs dir)
           = true)
    ∧ migration_files dir ≠ [].
Proof.
  unfold Cli.run_migrations, Cli.get_database_password.
  destruct (Cli.truthy (Cli.VITE_SUPABASE_URL env)) as [url|] eqn:Hurl;
    [|done].
  apply truthy_Some in Hurl as [Hurl Hne].
  destruct (Cli.truthy (Cli.SUPABASE_DB_PASSWORD env)) as [pw|] eqn:Hpw.
  - apply truthy_Some in Hpw as [Hpw Hpne]. simpl.
    intros [_ Hfiles]%run_migrations_conn.
    exists url, pw. split_and!; try done. by left.
  - destruct (Cli.truthy (Some typed)) as [pw|] eqn:Ht; [|done].
    apply truthy_Some in Ht as [[= ->] Hpne]. simpl.
    intros [_ Hfiles]%run_migrations_conn.
    exists url, pw. split_and!; try done. by right.
Qed.

(** X17: [run-single-migration.py] opens a connection only when it was
    called with a file and at most one more argument, the file could be
    read, and a password that is not empty was there: the one given on the
    command line when that is not empty, and only otherwise the one of the
    environment.  It never asks for it. *)
Theorem main_connects_with_password (argv : list string)
    (env : Cli.environment) (fs : gmap string string) (c : connection DB) :
  conn (Cli.outcome (Cli.main exec_sql netloc connect_to argv env fs))
    = Some c →
  ∃ script f rest url pw,
    argv = script :: f :: rest ∧ (length rest ≤ 1)%nat
    ∧ Cli.VITE_SUPABASE_URL env = Some url ∧ url ≠ "" ∧ pw ≠ ""
    ∧ Cli.config (Cli.main exec_sql netloc connect_to argv env fs)
      = Some (Cli.make_config (netloc url) pw)
    ∧ (head rest = Some pw
       ∨ Cli.truthy (head rest) = None
         ∧ Cli.SUPABASE_DB_PASSWORD env = Some pw)
    ∧ Cli.asked (Cli.main exec_sql netloc connect_to argv env fs) = false
    ∧ is_Some (read_file fs f).
Proof.
  unfold Cli.main.
  destruct argv as [|script [|f [|given [|??]]]]; try done.
  - unfold Cli.run_migration, Cli.get_database_password_env.
    destruct (Cli.truthy (Cli.VITE_SUPABASE_URL env)) as [url|] eqn:Hurl;
      [|done].
    apply truthy_Some in Hurl as [Hurl Hne]. simpl.
    destruct (Cli.truthy (Cli.SUPABASE_DB_PASSWORD env)) as [pw|] eqn:Hpw;
      [|done].
    apply truthy_Some in Hpw as [Hpw Hpne]. simpl.
    intros [_ Hread]%run_migration_conn.
    exists script, f, [], url, pw. split_and!; try done; [simpl; lia|].
    by right.
  - unfold Cli.run_migration, Cli.get_database_password_env.
    destruct (Cli.truthy (Cli.VITE_SUPABASE_URL env)) as [url|] eqn:Hurl;
      [|done].
    apply truthy_Some in Hurl as [Hurl Hne].
    destruct (Cli.truthy (Some given)) as [pw|] eqn:Hg.
    + apply truthy_Some in Hg as [[= ->] Hpne]. simpl.
      intros [_ Hread]%run_migration_conn.
      exists script, f, [pw], url, pw. split_and!; try done. by left.
    + destruct (Cli.truthy (Cli.SUPABASE_DB_PASSWORD env)) as [pw|] eqn:Hpw;
        [|done].
      apply truthy_Some in Hpw as [Hpw Hpne]. simpl.
      intros [_ Hread]%run_migration_conn.
      exists script, f, [given], url, pw. split_and!; try done. by right.
Qed.

End CliFacts.

Section CliWitnesses.

Lemma run_migrations_connects_with_password_witness :
  ∃ url pw,
    Cli.VITE_SUPABASE_URL sample_env = Some url ∧ url ≠ "" ∧ pw ≠ ""
    ∧ Cli.config
        (Cli.run_migrations sample_exec id sample_connect sample_env "secret"
           sample_fs sample_dir)
      = Some {| Cli.host := id url; Cli.user := "postgres";
                Cli.password := pw; Cli.database := "postgres";
                Cli.port := "5432"; Cli.sslmode := "require";
                Cli.connect_timeout := 30 |}
    ∧ (Cli.SUPABASE_DB_PASSWORD sample_env = Some pw
       ∧ Cli.asked
           (Cli.run_migrations sample_exec id sample_connect sample_env
              "secret" sample_fs sample_dir)
         = false
       ∨ Cli.truthy (Cli.SUPABASE_DB_PASSWORD sample_env) = None
         ∧ pw = "secret"
         ∧ Cli.asked
             (Cli.run_migrations sample_exec id sample_connect sample_env
                "secret" sample_fs sample_dir)
           = true)
    ∧ migration_files sample_dir ≠ [].
Proof.
  apply (run_migrations_connects_with_password sample_exec id sample_connect
    sample_env "secret" sample_fs sample_dir
    (live ["create table t (id int);"])).
  reflexivity.
Defined.

Lemma main_connects_with_password_witness :
  ∃ script f rest url pw,
    ["run-single-migration.py"; "001_init.sql"; "secret"]
      = script :: f :: rest ∧ (length rest ≤ 1)%nat
    ∧ Cli.VITE_SUPABASE_URL sample_env = Some url ∧ url ≠ "" ∧ pw ≠ ""
    ∧ Cli.config
        (Cli.main sample_exec id sample_connect
           ["run-single-migration.py"; "001_init.sql"; "secret"]
           sample_env sample_fs)
      = Some (Cli.make_config (id url) pw)
    ∧ (head rest = Some pw
       ∨ Cli.truthy (head rest) = None
         ∧ Cli.SUPABASE_DB_PASSWORD sample_env = Some pw)
    ∧ Cli.asked
        (Cli.main sample_exec id sample_connect
           ["run-single-migration.py"; "001_init.sql"; "secret"]
           sample_env sample_fs) = false
    ∧ is_Some (read_file sample_fs f).
Proof.
  apply (main_connects_with_password sample_exec id sample_connect
    ["run-single-migration.py"; "001_init.sql"; "secret"] sample_env
    sample_fs (close (live ["create table t (id int);"]))).
  reflexivity.
Defined.

End CliWitnesses.

(** ** The console wrapper *)

Section EchoFacts.

Import Echo.

Lemma in_emoji_block_false (c : N) :
  in_emoji_block c = false ↔ ¬ (127744 ≤ c ≤ 129535)%N.
Proof.
  unfold in_emoji_block. rewrite andb_false_iff, !N.leb_gt. lia.
Qed.

Lemma strip_emoji_idempotent (s : list N) :
  strip_emoji (strip_emoji s) = strip_emoji s.
Proof.
  unfold strip_emoji. apply filter_all, Forall_forall.
  by intros c [? _]%list_elem_of_filter.
Qed.

Lemma sublist_strip_emoji (t s : list N) :
  t `sublist_of` s → strip_emoji t `sublist_of` strip_emoji s.
Proof.
  unfold strip_emoji. induction 1 as [|x t s _ IH|x t s _ IH]; [done|..].
  - destruct (decide (in_emoji_block x = false)).
    + rewrite !filter_cons_True by done. by constructor.
    + by rewrite !filter_cons_False.
  - destruct (decide (in_emoji_block x = false)).
    + rewrite (filter_cons_True _ x s) by done. by constructor.
    + by rewrite (filter_cons_False _ x s).
Qed.

(** X18: [patched_echo] hands on to the original [echo] a message that was
    not given as it is, and any other message as a string: the [str] of the
    message without its code points from U+1F300 to U+1F9FF, that is the
    largest part of it, in order, that holds none of them; the other
    arguments are handed on unchanged, and patching the patched function
    once more changes nothing. *)
Theorem patched_echo_passes_stripped_text {Obj File Color Result : Type}
    (str_of : Obj → list N)
    (original_echo :
       option (value Obj) → option File → bool → bool → option Color → Result)
    (file : option File) (nl err : bool) (color : option Color) :
  patched_echo str_of original_echo None file nl err color
    = original_echo None file nl err color
  ∧ (∀ v, ∃ t,
       patched_echo str_of original_echo (Some v) file nl err color
         = original_echo (Some (Text t)) file nl err color
       ∧ t `sublist_of` str str_of v
       ∧ Forall (λ c, ¬ (127744 ≤ c ≤ 129535)%N) t
       ∧ ∀ t', t' `sublist_of` str str_of v →
               Forall (λ c, ¬ (127744 ≤ c ≤ 129535)%N) t' →
               t' `sublist_of` t)
  ∧ (∀ message,
       patched_echo str_of (patched_echo str_of original_echo) message
         file nl err color
       = patched_echo str_of original_echo message file nl err color).
Proof.
  split_and!; [done| |].
  - intros v. exists (strip_emoji (str str_of v)). split_and!; [done|..].
    + apply sublist_filter.
    + apply Forall_forall. intros c [Hc _]%list_elem_of_filter.
      by apply in_emoji_block_false.
    + intros t' Hsub Hfree. apply sublist_strip_emoji in Hsub.
      assert (strip_emoji t' = t') as Heq; [|by rewrite Heq in Hsub].
      apply filter_all. eapply Forall_impl; [exact Hfree|].
      intros c. apply in_emoji_block_false.
  - intros [v|]; [|done]. unfold patched_echo. simpl.
    by rewrite strip_emoji_idempotent.
Qed.

End EchoFacts.
